(** * gdoc2doc: the query matcher and the filename sanitizer

    A shallow embedding of [together_filter.go] ([FilterDocuments],
    [FindMatchingDocuments]) and of [SanitizeFilename] / [exportDocument],
    with the properties the specification states about them.

    Go strings are byte sequences: they are [string] here, one [ascii] per
    byte.  The functions of Go's [strings] package the program calls are
    written out below; where such a function consults the Unicode tables
    (white space and case of non-ASCII runes) the table-driven part is a
    field of the class [UnicodeTables], so every theorem holds whatever the
    tables are, and every ASCII input computes. *)

From Stdlib Require Import Ascii NArith ZArith Lia DecimalString DecimalNat.
From stdpp Require Import base list strings gmap.

Local Open Scope stdpp_scope.

(** ** Bytes *)

Definition RuneSelf : N := 128.

Definition byteLt (a b : ascii) : bool := (N_of_ascii a <? N_of_ascii b)%N.
Definition byteLe (a b : ascii) : bool := (N_of_ascii a <=? N_of_ascii b)%N.

(** [c >= utf8.RuneSelf] *)
Definition nonASCII (c : ascii) : bool := (RuneSelf <=? N_of_ascii c)%N.

(** [asciiSpace]: the table of [strings.TrimSpace] and [strings.Fields]. *)
Definition asciiSpace (c : ascii) : bool :=
  existsb (Ascii.eqb c) ["009"; "010"; "011"; "012"; "013"; " "]%char.

Definition isUpperASCII (c : ascii) : bool := byteLe "A"%char c && byteLe c "Z"%char.

(** [c += 'a' - 'A'] on a byte. *)
Definition addCaseOffset (c : ascii) : ascii :=
  ascii_of_N ((N_of_ascii c + 32) mod 256).

Definition lowerByte (c : ascii) : ascii :=
  if isUpperASCII c then addCaseOffset c else c.

(** ** Strings as byte sequences *)

Definition len (s : string) : nat := String.length s.

(** [s[i]]; [None] is the index-out-of-range panic. *)
Definition byteAt (s : string) (i : nat) : option ascii := String.get i s.

(** [s[n:]] for [n <= len(s)] (every use below is guarded by a length test). *)
Fixpoint sliceFrom (n : nat) (s : string) : string :=
  match n, s with
  | O, _ => s
  | S n', String _ s' => sliceFrom n' s'
  | S _, EmptyString => EmptyString
  end.

Fixpoint mapBytes (f : ascii → ascii) (s : string) : string :=
  match s with
  | EmptyString => EmptyString
  | String c s' => String (f c) (mapBytes f s')
  end.

Fixpoint allBytes (p : ascii → bool) (s : string) : bool :=
  match s with
  | EmptyString => true
  | String c s' => p c && allBytes p s'
  end.

Fixpoint anyByte (p : ascii → bool) (s : string) : bool :=
  match s with
  | EmptyString => false
  | String c s' => p c || anyByte p s'
  end.

(** Every byte is below [utf8.RuneSelf]. *)
Definition isASCII (s : string) : bool := allBytes (λ c, negb (nonASCII c)) s.

(** ** The [strings] package *)

(** [strings.HasPrefix] *)
Fixpoint HasPrefix (s prefix : string) {struct prefix} : bool :=
  match prefix, s with
  | EmptyString, _ => true
  | String p prefix', String c s' => Ascii.eqb c p && HasPrefix s' prefix'
  | String _ _, EmptyString => false
  end.

(** [strings.TrimPrefix] *)
Definition TrimPrefix (s prefix : string) : string :=
  if HasPrefix s prefix then sliceFrom (len prefix) s else s.

(** [strings.Index]: the byte offset of the first occurrence. *)
Fixpoint Index (s substr : string) : option nat :=
  if HasPrefix s substr then Some 0
  else match s with
       | EmptyString => None
       | String _ s' => S <$> Index s' substr
       end.

(** [strings.Contains]: [Index(s, substr) >= 0]. *)
Definition Contains (s substr : string) : bool :=
  match Index s substr with Some _ => true | None => false end.

(** [strings.ReplaceAll] for a non-empty [old]: occurrences are found left to
    right and do not overlap; [skip] counts the bytes of a found occurrence
    that are still to be passed over.  (An empty [old], which Go matches at
    every rune boundary, is never passed by this program; the string is then
    returned as it is.) *)
Fixpoint replaceFrom (old new : string) (skip : nat) (s : string) : string :=
  match s with
  | EmptyString => EmptyString
  | String c s' =>
      match skip with
      | S k => replaceFrom old new k s'
      | O =>
          if HasPrefix s old
          then new +:+ replaceFrom old new (len old - 1) s'
          else String c (replaceFrom old new 0 s')
      end
  end.

Definition ReplaceAll (s old new : string) : string :=
  match old with
  | EmptyString => s
  | String _ _ => replaceFrom old new 0 s
  end.

(** [strings.Split] for a non-empty [sep]: [cur] is the field being read. (An
    empty [sep] explodes the string into runes in Go; the program splits on
    a newline only.) *)
Fixpoint splitFrom (sep : string) (skip : nat) (cur : string) (s : string)
  : list string :=
  match s with
  | EmptyString => [cur]
  | String c s' =>
      match skip with
      | S k => splitFrom sep k cur s'
      | O =>
          if HasPrefix s sep
          then cur :: splitFrom sep (len sep - 1) EmptyString s'
          else splitFrom sep 0 (cur +:+ String c EmptyString) s'
      end
  end.

Definition Split (s sep : string) : list string :=
  match sep with
  | EmptyString => [s]
  | String _ _ => splitFrom sep 0 EmptyString s
  end.

(** The table-driven parts of the [strings] package. *)
Class UnicodeTables := {
  (** [strings.TrimFunc(s, unicode.IsSpace)] *)
  trimFuncIsSpace : string → string;
  (** [strings.TrimRightFunc(s, unicode.IsSpace)] *)
  trimRightFuncIsSpace : string → string;
  (** [strings.Map(unicode.ToLower, s)] *)
  mapUnicodeToLower : string → string;
  (** the rune loop of [strings.EqualFold], entered at the first position
      where either string has a non-ASCII byte *)
  equalFoldRunes : string → string → bool;
}.

Section Strings.
Context `{UnicodeTables}.

(** Second loop of [strings.TrimSpace], read on the reversed string: [r]
    is [s[start:stop]] backwards. *)
Fixpoint trimSpaceBackward (r : string) : string :=
  match r with
  | EmptyString => EmptyString
  | String c r' =>
      if nonASCII c then trimRightFuncIsSpace (String.rev r)
      else if asciiSpace c then trimSpaceBackward r'
      else String.rev r
  end.

(** [strings.TrimSpace]: the first loop advances [start] over ASCII white
    space and hands over to the Unicode version at a non-ASCII byte. *)
Fixpoint TrimSpace (s : string) : string :=
  match s with
  | EmptyString => EmptyString
  | String c s' =>
      if nonASCII c then trimFuncIsSpace s
      else if asciiSpace c then TrimSpace s'
      else trimSpaceBackward (String.rev s)
  end.

(** [strings.ToLower]: ASCII-only strings are lowered byte by byte. *)
Definition ToLower (s : string) : string :=
  if isASCII s then
    if anyByte isUpperASCII s then mapBytes lowerByte s else s
  else mapUnicodeToLower s.

(** [strings.EqualFold]: the ASCII loop, then the length test; a non-ASCII
    byte on either side sends the rest of both strings to the rune loop. *)
Fixpoint EqualFold (s t : string) : bool :=
  match s, t with
  | String sr s', String tr t' =>
      if nonASCII sr || nonASCII tr then equalFoldRunes s t
      else if Ascii.eqb tr sr then EqualFold s' t'
      else
        let lo := if byteLt tr sr then tr else sr in
        let hi := if byteLt tr sr then sr else tr in
        if isUpperASCII lo && Ascii.eqb hi (addCaseOffset lo)
        then EqualFold s' t'
        else false
  | EmptyString, EmptyString => true
  | _, _ => false
  end.
End Strings.

(** Tables with no entry: no non-ASCII rune is white space or has another
    case.  They are used to run the definitions on concrete inputs; ASCII
    inputs never reach them. *)
Definition noTables : UnicodeTables := {|
  trimFuncIsSpace := λ s, s;
  trimRightFuncIsSpace := λ s, s;
  mapUnicodeToLower := λ s, s;
  equalFoldRunes := λ s t, bool_decide (s = t);
|}.

(** ** The program's data ([drive.go], [together_filter.go]) *)

Record GoogleDocument := {
  ID : string;
  Name : string;
  Description : string;
  ModifiedAt : string;
  CreatedAt : string;
}.

Record ExportFormat := {
  MimeType : string;
  Extension : string;
}.

Record TogetherMessage := {
  Role : string;
  Content : string;
}.

Record TogetherRequest := {
  Model : string;
  Messages : list TogetherMessage;
}.

(** One element of [TogetherResponse.Choices]; its only field is
    [Message.Content]. *)
Record TogetherChoice := {
  Message_Content : string;
}.

(** [Error] is a pointer in the source: [None] is [nil], [Some m] an error
    object whose [Message] is [m]. *)
Record TogetherResponse := {
  Choices : list TogetherChoice;
  Error : option string;
}.

Record DocumentFilter := {
  apiKey : string;
}.

Definition TogetherModel : string := "ServiceNow-AI/Apriel-1.6-15b-Thinker".

Definition newline : string := String "010"%char "".
Definition quote : string := String "034"%char "".

(** ** [SanitizeFilename] and the file name of an export *)

Definition invalidChars : list string :=
  ["\"; "/"; ":"; "*"; "?"; quote; "<"; ">"; "|"].

Definition SanitizeFilename (name : string) : string :=
  fold_left (λ result char, ReplaceAll result char "_") invalidChars name.

(** [filename] and [outputPath] as [exportDocument] computes them before it
    calls the Drive client. *)
Definition exportDocument_filename
    (document : GoogleDocument) (format : ExportFormat) : string :=
  SanitizeFilename (Name document) +:+ Extension format.

Definition exportDocument_outputPath
    (document : GoogleDocument) (outputDirectory : string)
    (format : ExportFormat) : string :=
  let filename := exportDocument_filename document format in
  if negb (bool_decide (outputDirectory = ".")) &&
     negb (bool_decide (outputDirectory = ""))
  then outputDirectory +:+ "/" +:+ filename
  else filename.

(** ** [FilterDocuments]: the prompt *)

(** [fmt.Sprintf("%d", n)] for a non-negative [n]. *)
Definition formatInt (n : nat) : string :=
  NilEmpty.string_of_uint (Nat.to_uint n).

(** One turn of the loop that fills the [strings.Builder]. *)
Definition writeDocument
    (documentList : string) (index : nat) (document : GoogleDocument) : string :=
  let documentList :=
    documentList +:+ (formatInt (index + 1) +:+ ". " +:+ Name document) in
  let documentList :=
    if negb (bool_decide (Description document = ""))
    then documentList +:+ (" - " +:+ Description document)
    else documentList in
  documentList +:+ newline.

(** [for index, document := range documents], from [index] on. *)
Fixpoint writeDocuments
    (documents : list GoogleDocument) (index : nat) (documentList : string)
  : string :=
  match documents with
  | [] => documentList
  | document :: rest =>
      writeDocuments rest (S index) (writeDocument documentList index document)
  end.

Definition documentList (documents : list GoogleDocument) : string :=
  writeDocuments documents 0 "".

(** The format string of the prompt, cut at its two [%s] verbs. *)
Definition promptBeforeList : string :=
  "You are a document filter assistant. Given a list of document names and a search query, return ONLY the names of documents that match the query."
  +:+ newline +:+ newline
  +:+ "Which documents from this list:" +:+ newline.

Definition promptBeforeQuery : string :=
  newline +:+ "Match the prompt: ".

Definition promptAfterQuery : string :=
  newline +:+ newline
  +:+ "Rules:" +:+ newline
  +:+ "1. Return ONLY the document names that match, one per line" +:+ newline
  +:+ "2. Use EXACT document names from the list" +:+ newline
  +:+ "3. If no documents match, return " +:+ quote +:+ "NONE" +:+ quote
  +:+ newline
  +:+ "4. Do not explain or add any other text" +:+ newline +:+ newline
  +:+ "Matching documents:".

Definition buildPrompt (documents : list GoogleDocument) (query : string)
  : string :=
  promptBeforeList +:+ documentList documents
  +:+ promptBeforeQuery +:+ query +:+ promptAfterQuery.

(** ** [FilterDocuments]: errors and the outside world *)

(** The errors [FilterDocuments] returns; [cause] is the wrapped error's
    message. *)
Inductive FilterError :=
  | MarshalFailed (cause : string)
  | CreateRequestFailed (cause : string)
  | SendFailed (cause : string)
  | ReadFailed (cause : string)
  | ParseFailed (cause : string)
  | APIError (message : string)
  | NoResponse.

(** [err.Error()] *)
Definition errorMessage (e : FilterError) : string :=
  match e with
  | MarshalFailed cause => "failed to marshal request: " +:+ cause
  | CreateRequestFailed cause => "failed to create request: " +:+ cause
  | SendFailed cause => "failed to send request: " +:+ cause
  | ReadFailed cause => "failed to read response: " +:+ cause
  | ParseFailed cause => "failed to parse response: " +:+ cause
  | APIError message => "API error: " +:+ message
  | NoResponse => "no response from AI model"
  end.

Definition result (A : Type) : Type := FilterError + A.

(** [if err != nil { return nil, fmt.Errorf(..., err) }] *)
Definition orFail {A B : Type}
    (wrap : string → FilterError) (r : string + A) (k : A → result B)
  : result B :=
  match r with
  | inl cause => inl (wrap cause)
  | inr a => k a
  end.

Local Notation "x ← r 'failing' wrap ; k" := (orFail wrap r (λ x, k))
  (at level 20, r at level 100, wrap at level 9, k at level 200,
   only parsing, right associativity).

Record HTTPRequest := {
  Method : string;
  URL : string;
  RequestBody : string;
  Header : list (string * string);
}.

(** [Header.Set] *)
Definition Header_Set (r : HTTPRequest) (key value : string) : HTTPRequest :=
  {| Method := Method r; URL := URL r; RequestBody := RequestBody r;
     Header := (key, value) :: filter (λ kv, kv.1 ≠ key) (Header r) |}.

(** What [FilterDocuments] calls outside the program: the JSON codec and the
    HTTP client.  A left result is the message of the error returned. *)
Class Network := {
  ResponseStream : Type;
  json_Marshal : TogetherRequest → string + string;
  http_NewRequest : string → string → string → string + HTTPRequest;
  client_Do : HTTPRequest → string + ResponseStream;
  io_ReadAll : ResponseStream → string + string;
  json_Unmarshal : string → string + TogetherResponse;
}.

(** ** [FilterDocuments]: reading the answer *)

(** [strings.TrimPrefix(cleaned, "- ")] then [strings.TrimPrefix(cleaned, "* ")]. *)
Definition stripBullets (cleaned : string) : string :=
  let cleaned := TrimPrefix cleaned "- " in
  TrimPrefix cleaned "* ".

(** [if len(cleaned) > 3 && cleaned[1] == '.' && cleaned[2] == ' ' { cleaned = cleaned[3:] }] *)
Definition stripOneDigitPrefix (cleaned : string) : string :=
  if (3 <? len cleaned)
     && bool_decide (byteAt cleaned 1 = Some "."%char)
     && bool_decide (byteAt cleaned 2 = Some " "%char)
  then sliceFrom 3 cleaned
  else cleaned.

(** [if len(cleaned) > 4 && cleaned[2] == '.' && cleaned[3] == ' ' { cleaned = cleaned[4:] }] *)
Definition stripTwoDigitPrefix (cleaned : string) : string :=
  if (4 <? len cleaned)
     && bool_decide (byteAt cleaned 2 = Some "."%char)
     && bool_decide (byteAt cleaned 3 = Some " "%char)
  then sliceFrom 4 cleaned
  else cleaned.

Definition stripNumbering (cleaned : string) : string :=
  stripTwoDigitPrefix (stripOneDigitPrefix cleaned).

Section Filter.
Context `{UnicodeTables}.

(** The body of the loop over the lines, up to the final trim. *)
Definition cleanLine (line : string) : string :=
  let cleaned := TrimSpace line in
  let cleaned := stripBullets cleaned in
  let cleaned := stripNumbering cleaned in
  TrimSpace cleaned.

Definition keepLine (matchingNames : list string) (line : string)
  : list string :=
  let cleaned := cleanLine line in
  if negb (bool_decide (cleaned = "")) && negb (bool_decide (cleaned = "NONE"))
  then matchingNames ++ [cleaned]
  else matchingNames.

(** From [response.Error != nil] to the end of [FilterDocuments]. *)
Definition parseResponse (response : TogetherResponse) : result (list string) :=
  match Error response with
  | Some message => inl (APIError message)
  | None =>
      match Choices response with
      | [] => inl NoResponse
      | choice :: _ =>
          let content := TrimSpace (Message_Content choice) in
          if bool_decide (content = "NONE") || bool_decide (content = "")
          then inr []
          else
            let lines := Split content newline in
            inr (fold_left keepLine lines [])
      end
  end.

Context `{Network}.

(** From the prompt to the decoded response body. *)
Definition requestCompletion
    (filter : DocumentFilter) (documents : list GoogleDocument)
    (query : string) : result TogetherResponse :=
  let prompt := buildPrompt documents query in
  let request :=
    {| Model := TogetherModel;
       Messages := [ {| Role := "user"; Content := prompt |} ] |} in
  requestBody ← json_Marshal request failing MarshalFailed;
  httpRequest ←
    http_NewRequest "POST" "https://api.together.xyz/v1/chat/completions"
      requestBody
    failing CreateRequestFailed;
  let httpRequest :=
    Header_Set httpRequest "Authorization" ("Bearer " +:+ apiKey filter) in
  let httpRequest :=
    Header_Set httpRequest "Content-Type" "application/json" in
  httpResponse ← client_Do httpRequest failing SendFailed;
  responseBody ← io_ReadAll httpResponse failing ReadFailed;
  response ← json_Unmarshal responseBody failing ParseFailed;
  inr response.

Definition FilterDocuments
    (filter : DocumentFilter) (documents : list GoogleDocument)
    (query : string) : result (list string) :=
  match requestCompletion filter documents query with
  | inl e => inl e
  | inr response => parseResponse response
  end.

(** ** [FindMatchingDocuments] *)

(** The test of the inner loop. *)
Definition nameMatches (document : GoogleDocument) (name : string) : bool :=
  EqualFold (Name document) name
  || Contains (ToLower (Name document)) (ToLower name).

(** [for _, name := range matchingNames]: the first name that matches
    appends the document and breaks. *)
Fixpoint scanNames
    (document : GoogleDocument) (matchingNames : list string)
    (matches : list GoogleDocument) : list GoogleDocument :=
  match matchingNames with
  | [] => matches
  | name :: rest =>
      if nameMatches document name
      then matches ++ [document]
      else scanNames document rest matches
  end.

Definition FindMatchingDocuments
    (documents : list GoogleDocument) (matchingNames : list string)
  : list GoogleDocument :=
  fold_left
    (λ matches document, scanNames document matchingNames matches)
    documents [].
End Filter.

(** A network that answers every request with one fixed decoded response. *)
Definition fixedResponse (response : TogetherResponse) : Network := {|
  ResponseStream := string;
  json_Marshal := λ _, inr "{}";
  http_NewRequest := λ method url body,
    inr {| Method := method; URL := url; RequestBody := body; Header := [] |};
  client_Do := λ _, inr "{}";
  io_ReadAll := λ body, inr body;
  json_Unmarshal := λ _, inr response;
|}.

Definition answer (content : string) : TogetherResponse :=
  {| Choices := [ {| Message_Content := content |} ]; Error := None |}.

Definition doc (name description : string) : GoogleDocument :=
  {| ID := name; Name := name; Description := description;
     ModifiedAt := ""; CreatedAt := "" |}.

(** * The rest of the program: formats, listing, exporting, selecting *)

(** ** [ExportFormats] and the format flag of [main] *)

Definition ExportFormats : gmap string ExportFormat :=
  list_to_map [
    ("pdf", {| MimeType := "application/pdf"; Extension := ".pdf" |});
    ("docx",
     {| MimeType :=
          "application/vnd.openxmlformats-officedocument.wordprocessingml.document";
        Extension := ".docx" |});
    ("odt",
     {| MimeType := "application/vnd.oasis.opendocument.text";
        Extension := ".odt" |});
    ("rtf", {| MimeType := "application/rtf"; Extension := ".rtf" |});
    ("txt", {| MimeType := "text/plain"; Extension := ".txt" |});
    ("html", {| MimeType := "text/html"; Extension := ".html" |});
    ("epub", {| MimeType := "application/epub+zip"; Extension := ".epub" |});
    ("md", {| MimeType := "text/markdown"; Extension := ".md" |});
    ("markdown", {| MimeType := "text/markdown"; Extension := ".md" |})
  ].

Section Formats.
Context `{UnicodeTables}.

(** The lookup of the format flag's value, lowered, in [ExportFormats]. *)
Definition lookupExportFormat (exportType : string) : option ExportFormat :=
  ExportFormats !! ToLower exportType.
End Formats.

(** ** [strconv.Atoi] *)

(** [ch -= '0'; if ch > 9 { syntax error }] *)
Definition digitOf (ch : ascii) : option Z :=
  if byteLe "0"%char ch && byteLe ch "9"%char
  then Some (Z.of_N (N_of_ascii ch) - 48)%Z
  else None.

(** [n = n*10 + int(ch)] over the digits. *)
Fixpoint atoiDigits (s : string) (n : Z) : option Z :=
  match s with
  | EmptyString => Some n
  | String ch s' =>
      match digitOf ch with
      | None => None
      | Some d => atoiDigits s' (n * 10 + d)%Z
      end
  end.

(** [strconv.Atoi] with a 64-bit [int]: an optional sign and then decimal
    digits, at least one; [None] is the error (syntax or range). *)
Definition Atoi (s : string) : option Z :=
  match s with
  | EmptyString => None
  | String c rest =>
      let signed := Ascii.eqb c "-"%char || Ascii.eqb c "+"%char in
      let digits := if signed then rest else s in
      match digits with
      | EmptyString => None
      | String _ _ =>
          match atoiDigits digits 0 with
          | None => None
          | Some n =>
              let n := if Ascii.eqb c "-"%char then (- n)%Z else n in
              if ((- 2 ^ 63 <=? n) && (n <=? 2 ^ 63 - 1))%Z
              then Some n
              else None
          end
      end
  end.

(** ** What the program does to the outside *)

Inductive Effect :=
  | Print (text : string)
  | PrintError (text : string)
  | ReadLine
  | ListFiles (q fields : string) (pageSize : nat) (pageToken : option string)
  | Download (documentID mimeType : string)
  | MkdirAll (directory : string)
  | Create (path : string)
  | Copy (path : string)
  | CloseFile (path : string)
  | CloseBody (documentID : string)
  | Getenv (name : string)
  | NewService
  | CallFilterDocuments (query : string).

(** ** [ListGoogleDocs] *)

(** The fields of [drive.File] the listing asks for. *)
Record DriveFile := {
  file_Id : string;
  file_Name : string;
  file_Description : string;
  file_ModifiedTime : string;
  file_CreatedTime : string;
}.

(** [response.Files] and [response.NextPageToken] of one [query.Do()]. *)
Record FileList := {
  Files : list DriveFile;
  NextPageToken : string;
}.

Definition toGoogleDocument (file : DriveFile) : GoogleDocument :=
  {| ID := file_Id file;
     Name := file_Name file;
     Description := file_Description file;
     ModifiedAt := file_ModifiedTime file;
     CreatedAt := file_CreatedTime file |}.

Definition listRequest (pageToken : string) : Effect :=
  ListFiles "mimeType='application/vnd.google-apps.document' and trashed=false"
    "nextPageToken, files(id, name, description, modifiedTime, createdTime)"
    100
    (if bool_decide (pageToken = "") then None else Some pageToken).

(** The loop of [ListGoogleDocs].  [answers] are the outcomes of the
    successive [query.Do()] calls, an error message or a page; the loop is
    run for as long as there are answers, and [None] says that it was still
    asking for a page when they ran out.  The result comes with the requests
    made, in order. *)
Fixpoint listPages
    (answers : list (string + FileList))
    (pageToken : string) (documents : list GoogleDocument)
    (requests : list Effect)
  : option ((string + list GoogleDocument) * list Effect) :=
  match answers with
  | [] => None
  | answer :: answers' =>
      let requests := requests ++ [listRequest pageToken] in
      match answer with
      | inl cause => Some (inl ("failed to list files: " +:+ cause), requests)
      | inr response =>
          let documents := documents ++ (toGoogleDocument <$> Files response) in
          let pageToken := NextPageToken response in
          if bool_decide (pageToken = "")
          then Some (inr documents, requests)
          else listPages answers' pageToken documents requests
      end
  end.

Definition ListGoogleDocs (answers : list (string + FileList))
  : option ((string + list GoogleDocument) * list Effect) :=
  listPages answers "" [] [].

(** ** [ExportDocument] *)

(** The outcomes of the calls one [ExportDocument] makes: the download
    (error or body), [os.MkdirAll] and [os.Create] (an error, if any) and
    [io.Copy] (error or bytes written). *)
Record ExportOutcomes := {
  download : string + string;
  mkdirAll : option string;
  create : option string;
  copy : string + nat;
}.

Inductive ExportError :=
  | ExportFailed (cause : string)
  | DirectoryFailed (cause : string)
  | CreateFailed (cause : string)
  | WriteFailed (cause : string).

Definition exportErrorMessage (e : ExportError) : string :=
  match e with
  | ExportFailed cause => "failed to export document: " +:+ cause
  | DirectoryFailed cause => "failed to create output directory: " +:+ cause
  | CreateFailed cause => "failed to create output file: " +:+ cause
  | WriteFailed cause => "failed to write file: " +:+ cause
  end.

(** [filepath.Dir] is the platform's. *)
Class FilePath := {
  filepath_Dir : string → string;
}.

Section Exporting.
Context `{FilePath}.

(** The effects are listed in the order they happen; the deferred closes
    run last, the file before the body. *)
Definition ExportDocument
    (documentID outputPath : string) (format : ExportFormat)
    (outcomes : ExportOutcomes) : list Effect * option ExportError :=
  let started := [Download documentID (MimeType format)] in
  match download outcomes with
  | inl cause => (started, Some (ExportFailed cause))
  | inr body =>
      let outputDirectory := filepath_Dir outputPath in
      let makesDirectory :=
        negb (bool_decide (outputDirectory = "."))
        && negb (bool_decide (outputDirectory = "")) in
      let started :=
        if makesDirectory then started ++ [MkdirAll outputDirectory]
        else started in
      match (if makesDirectory then mkdirAll outcomes else None) with
      | Some cause =>
          (started ++ [CloseBody documentID], Some (DirectoryFailed cause))
      | None =>
          let started := started ++ [Create outputPath] in
          match create outcomes with
          | Some cause =>
              (started ++ [CloseBody documentID], Some (CreateFailed cause))
          | None =>
              let started := started ++ [Copy outputPath] in
              match copy outcomes with
              | inl cause =>
                  (started ++ [CloseFile outputPath; CloseBody documentID],
                   Some (WriteFailed cause))
              | inr bytesWritten =>
                  (started
                   ++ [Print ("Exported " +:+ formatInt bytesWritten
                              +:+ " bytes to " +:+ outputPath +:+ newline);
                       CloseFile outputPath; CloseBody documentID],
                   None)
              end
          end
      end
  end.

(** [exportDocument] of [main.go]: the error is reported and dropped. *)
Definition exportDocument
    (document : GoogleDocument) (outputDirectory : string)
    (format : ExportFormat) (outcomes : ExportOutcomes) : list Effect :=
  let outputPath := exportDocument_outputPath document outputDirectory format in
  let announced :=
    [Print (newline +:+ "Exporting: " +:+ Name document +:+ " -> "
            +:+ outputPath +:+ newline)] in
  match ExportDocument (ID document) outputPath format outcomes with
  | (effects, Some err) =>
      announced ++ effects
      ++ [PrintError ("Error exporting " +:+ Name document +:+ ": "
                      +:+ exportErrorMessage err +:+ newline)]
  | (effects, None) =>
      announced ++ effects ++ [Print ("Export complete!" +:+ newline)]
  end.

(** [for _, document := range matchingDocuments { exportDocument(...) }]:
    the i-th export of the run meets [outcomes i]. *)
Fixpoint exportAll
    (matchingDocuments : list GoogleDocument) (outputDirectory : string)
    (format : ExportFormat) (outcomes : nat → ExportOutcomes) (i : nat)
  : list Effect :=
  match matchingDocuments with
  | [] => []
  | document :: rest =>
      exportDocument document outputDirectory format (outcomes i)
      ++ exportAll rest outputDirectory format outcomes (S i)
  end.

Context `{UnicodeTables}.

(** The lines that list the matches: [fmt.Printf("  %d. %s\n", index+1, document.Name)]. *)
Definition printMatches (matchingDocuments : list GoogleDocument)
  : list Effect :=
  imap (λ index document,
          Print ("  " +:+ formatInt (index + 1) +:+ ". " +:+ Name document
                 +:+ newline))
    matchingDocuments.

Definition printOptions : list Effect :=
  [ Print (newline +:+ "Multiple documents match. Options:" +:+ newline);
    Print ("  - Enter a number to export that document" +:+ newline);
    Print ("  - Enter 'all' to export all matching documents" +:+ newline);
    Print ("  - Enter 'q' to quit" +:+ newline);
    Print (newline +:+ "Your choice: ") ].

(** [main] from [FindMatchingDocuments]' result to the exit: [line] is what
    [reader.ReadString] returns (its error is dropped).  The result is what
    the program did and its exit code (2 stands for a run-time panic). *)
Definition exportMatches
    (matchingDocuments : list GoogleDocument) (line : string)
    (outputDirectory : string) (format : ExportFormat)
    (outcomes : nat → ExportOutcomes) : list Effect * Z :=
  match matchingDocuments with
  | [] =>
      ([Print (newline +:+ "No documents matched your query." +:+ newline)], 0%Z)
  | first :: others =>
      let found :=
        Print (newline +:+ "Found " +:+ formatInt (length matchingDocuments)
               +:+ " matching document(s):" +:+ newline)
        :: printMatches matchingDocuments in
      if bool_decide (1 < length matchingDocuments) then
        let asked := found ++ printOptions ++ [ReadLine] in
        let input := TrimSpace (ToLower line) in
        if bool_decide (input = "q") then
          (asked ++ [Print ("Exiting." +:+ newline)], 0%Z)
        else if bool_decide (input = "all") then
          (asked ++ exportAll matchingDocuments outputDirectory format outcomes 0,
           0%Z)
        else
          match Atoi input with
          | None => (asked ++ [Print ("Invalid selection." +:+ newline)], 1%Z)
          | Some selection =>
              if bool_decide (selection < 1)%Z
                 || bool_decide (Z.of_nat (length matchingDocuments) < selection)%Z
              then (asked ++ [Print ("Invalid selection." +:+ newline)], 1%Z)
              else
                match matchingDocuments !! Z.to_nat (selection - 1) with
                | Some document =>
                    (asked
                     ++ exportDocument document outputDirectory format
                          (outcomes 0),
                     0%Z)
                | None => (asked, 2%Z)
                end
          end
      else
        (found ++ exportDocument first outputDirectory format (outcomes 0), 0%Z)
  end.
End Exporting.

(** ** [config.go], [NewDriveClient] and [main] *)

Record TokenData := {
  Token : string;
  RefreshToken : string;
  TokenURI : string;
  ClientID : string;
  ClientSecret : string;
  Scopes : list string;
}.

(** What [NewDriveClient] hands to the OAuth and Drive libraries: the
    [oauth2.Config] and the [oauth2.Token] it builds. *)
Record OAuthSetup := {
  config_ClientID : string;
  config_ClientSecret : string;
  config_Scopes : list string;
  token_AccessToken : string;
  token_RefreshToken : string;
  token_TokenType : string;
}.

(** The process environment and the two library calls of the start-up; a
    left result or [Some] is the message of the error returned. *)
Class Environment := {
  os_Getenv : string → string;
  json_UnmarshalToken : string → string + TokenData;
  drive_NewService : OAuthSetup → option string;
}.

(** [strings.Join] *)
Fixpoint Join (elems : list string) (sep : string) : string :=
  match elems with
  | [] => ""
  | [elem] => elem
  | elem :: rest => elem +:+ sep +:+ Join rest sep
  end.

(** The lines of the usage text. *)
Definition helpText : list string :=
  [ "gdoc2doc - Export Google Docs using natural language queries";
    "";
    "Usage:";
    "  gdoc2doc [flags] <query>";
    "";
    "Flags:";
    "  -output <dir>   Output directory (default: downloads/)";
    "  -t, -type <fmt> Export format (default: pdf)";
    "                  Formats: pdf, docx, odt, rtf, txt, html, epub, md";
    "  -list           List all documents without filtering";
    "";
    "Examples:";
    "  gdoc2doc " +:+ quote +:+ "meeting notes" +:+ quote;
    "  gdoc2doc -t md " +:+ quote +:+ "project proposal" +:+ quote;
    "  gdoc2doc -type docx -output ./exports " +:+ quote +:+ "report" +:+ quote;
    "  gdoc2doc -list";
    "";
    "Setup:";
    "  Load API keys before running:";
    "    . .\tools\load-key.ps1 -Service together -Target API";
    "    . .\tools\load-key.ps1 -Service google-docs -Target JWT" ].

(** [fmt.Println] of each line. *)
Definition printLines (lines : list string) : list Effect :=
  (λ line, Print (line +:+ newline)) <$> lines.

(** The listing of [-list]. *)
Definition printDocument (index : nat) (document : GoogleDocument)
  : list Effect :=
  [Print (formatInt (index + 1) +:+ ". " +:+ Name document +:+ newline)]
  ++ (if negb (bool_decide (Description document = ""))
      then [Print ("   Description: " +:+ Description document +:+ newline)]
      else [])
  ++ [Print ("   Modified: " +:+ ModifiedAt document +:+ newline)].

Definition printDocuments (documents : list GoogleDocument) : list Effect :=
  concat (imap printDocument documents).

Definition NewDocumentFilter (apiKey : string) : DocumentFilter :=
  {| apiKey := apiKey |}.

Section Main.
Context `{FilePath} `{UnicodeTables} `{Network} `{Environment}.

Definition LoadGoogleDocsToken : string + TokenData :=
  let tokenJSON := os_Getenv "GOOGLE-DOCS_JWT_KEY" in
  if bool_decide (tokenJSON = "") then
    inl ("GOOGLE-DOCS_JWT_KEY not set" +:+ newline +:+ newline
         +:+ "Run: . .\tools\load-key.ps1 -Service google-docs -Target JWT")
  else
    match json_UnmarshalToken tokenJSON with
    | inl cause => inl ("failed to parse GOOGLE-DOCS_JWT_KEY: " +:+ cause)
    | inr token => inr token
    end.

Definition GetTogetherAPIKey : string + string :=
  let key := os_Getenv "TOGETHER_API_KEY" in
  if bool_decide (key = "") then
    inl ("TOGETHER_API_KEY not set" +:+ newline +:+ newline
         +:+ "Run: . .\tools\load-key.ps1 -Service together -Target API")
  else inr key.

(** [NewDriveClient]: [Some] is the error; the client itself is the handle
    of the Drive calls and carries nothing the model reads. *)
Definition NewDriveClient (token : TokenData) : option string :=
  let setup :=
    {| config_ClientID := ClientID token;
       config_ClientSecret := ClientSecret token;
       config_Scopes := Scopes token;
       token_AccessToken := Token token;
       token_RefreshToken := RefreshToken token;
       token_TokenType := "Bearer" |} in
  match drive_NewService setup with
  | Some cause => Some ("failed to create Drive service: " +:+ cause)
  | None => None
  end.

(** [main] once [flag.Parse] has returned, from the parsed flags and the
    remaining arguments (a command line that does not parse ends the program
    inside the flag package, before any of this runs).  [answers], [line]
    and [outcomes] are what the listing, the terminal and the exports give
    when asked; [None] says that the listing never finished. *)
Definition main
    (outputDirectory : string) (listOnly : bool) (exportType : string)
    (args : list string)
    (answers : list (string + FileList)) (line : string)
    (outcomes : nat → ExportOutcomes) : option (list Effect * Z) :=
  let query := Join args " " in
  if bool_decide (query = "") && negb listOnly then
    Some (printLines helpText, 0%Z)
  else
    match lookupExportFormat exportType with
    | None =>
        Some ([PrintError ("Error: unsupported format '" +:+ exportType +:+ "'"
                           +:+ newline);
               PrintError ("Supported formats: pdf, docx, odt, rtf, txt, html, epub, md"
                           +:+ newline)],
              1%Z)
    | Some format =>
        let done := [Getenv "GOOGLE-DOCS_JWT_KEY"] in
        match LoadGoogleDocsToken with
        | inl message =>
            Some (done ++ [PrintError ("Error: " +:+ message +:+ newline)], 1%Z)
        | inr token =>
            let done := done ++ [NewService] in
            match NewDriveClient token with
            | Some message =>
                Some (done ++ [PrintError ("Error: " +:+ message +:+ newline)],
                      1%Z)
            | None =>
                let done :=
                  done ++ [Print ("Fetching documents from Google Drive..."
                                  +:+ newline)] in
                match ListGoogleDocs answers with
                | None => None
                | Some (inl message, requests) =>
                    Some (done ++ requests
                          ++ [PrintError ("Error: " +:+ message +:+ newline)],
                          1%Z)
                | Some (inr documents, requests) =>
                    let done := done ++ requests in
                    if bool_decide (length documents = 0) then
                      Some (done
                            ++ [Print ("No Google Docs found in your Drive."
                                       +:+ newline)],
                            0%Z)
                    else
                      let done :=
                        done
                        ++ [Print ("Found " +:+ formatInt (length documents)
                                   +:+ " documents." +:+ newline +:+ newline)] in
                      if listOnly then
                        Some (done ++ printDocuments documents, 0%Z)
                      else
                        let done := done ++ [Getenv "TOGETHER_API_KEY"] in
                        match GetTogetherAPIKey with
                        | inl message =>
                            Some (done
                                  ++ [PrintError ("Error: " +:+ message
                                                  +:+ newline)],
                                  1%Z)
                        | inr togetherKey =>
                            let done :=
                              done
                              ++ [Print ("Filtering documents with query: "
                                         +:+ query +:+ newline);
                                  Print ("Sending to Together AI..." +:+ newline);
                                  CallFilterDocuments query] in
                            match FilterDocuments
                                    (NewDocumentFilter togetherKey)
                                    documents query
                            with
                            | inl err =>
                                Some (done
                                      ++ [PrintError
                                            ("Error filtering documents: "
                                             +:+ errorMessage err +:+ newline)],
                                      1%Z)
                            | inr matchingNames =>
                                let matchingDocuments :=
                                  FindMatchingDocuments documents matchingNames in
                                let exported :=
                                  exportMatches matchingDocuments line
                                    outputDirectory format outcomes in
                                Some (done ++ exported.1, exported.2)
                            end
                        end
                end
            end
        end
    end.
End Main.

(** An environment in which both variables are set and the start-up
    succeeds, and one with nothing set. *)
Definition readyEnvironment : Environment := {|
  os_Getenv := λ name,
    if bool_decide (name = "TOGETHER_API_KEY") then "key" else "{}";
  json_UnmarshalToken := λ _,
    inr {| Token := "t"; RefreshToken := "r"; TokenURI := "u";
           ClientID := "c"; ClientSecret := "s"; Scopes := [] |};
  drive_NewService := λ _, None;
|}.

Definition emptyEnvironment : Environment := {|
  os_Getenv := λ _, "";
  json_UnmarshalToken := λ _, inl "unexpected end of JSON input";
  drive_NewService := λ _, None;
|}.

(** A platform whose [filepath.Dir] cuts at the last slash. *)
Fixpoint lastSlash (s : string) : option nat :=
  match s with
  | EmptyString => None
  | String c s' =>
      match lastSlash s' with
      | Some i => Some (S i)
      | None => if Ascii.eqb c "/"%char then Some 0 else None
      end
  end.

Definition slashPaths : FilePath := {|
  filepath_Dir := λ path,
    match lastSlash path with
    | Some (S i) => String.substring 0 (S i) path
    | Some O => "/"
    | None => "."
    end;
|}.

(** * The vocabulary of the statements *)

Section Matched.
Context `{UnicodeTables}.

(** Some candidate name matches the document. *)
Definition matchedBy (matchingNames : list string) (document : GoogleDocument)
  : Prop :=
  Exists (λ name, nameMatches document name = true) matchingNames.

#[global] Instance matchedBy_dec matchingNames document :
  Decision (matchedBy matchingNames document).
Proof. unfold matchedBy. apply _. Defined.
End Matched.

(** One turn of the ASCII loop of [EqualFold]. *)
Definition foldsTo (sr tr : ascii) : bool :=
  Ascii.eqb tr sr
  || (let lo := if byteLt tr sr then tr else sr in
      let hi := if byteLt tr sr then sr else tr in
      isUpperASCII lo && Ascii.eqb hi (addCaseOffset lo)).

Definition asciiBytes : list ascii := ascii_of_nat <$> seq 0 128.

Definition isDigitByte (c : ascii) : bool :=
  byteLe "0"%char c && byteLe c "9"%char.

(** The identifiers of the documents whose download was asked for, in
    order. *)
Definition downloadedIDs (effects : list Effect) : list string :=
  omap (λ e, match e with Download documentID _ => Some documentID | _ => None end)
    effects.

Definition isReadLine (e : Effect) : bool :=
  match e with ReadLine => true | _ => false end.

(** Anything but printing and reading the terminal. *)
Definition reachesOutside (e : Effect) : bool :=
  match e with
  | Print _ | PrintError _ | ReadLine => false
  | _ => true
  end.

Definition isCloseBody (e : Effect) : bool :=
  match e with CloseBody _ => true | _ => false end.

Definition isCloseFile (e : Effect) : bool :=
  match e with CloseFile _ => true | _ => false end.

Definition isCreate (e : Effect) : bool :=
  match e with Create _ => true | _ => false end.

Definition countEffects (p : Effect → bool) (effects : list Effect) : nat :=
  length (List.filter p effects).

(** The page tokens of the requests that get the pages [pages], the first
    of them with [pageToken], and the token in hand after them. *)
Fixpoint tokensSent (pageToken : string) (pages : list FileList) : list string :=
  match pages with
  | [] => []
  | page :: pages' => pageToken :: tokensSent (NextPageToken page) pages'
  end.

Fixpoint tokenAfter (pageToken : string) (pages : list FileList) : string :=
  match pages with
  | [] => pageToken
  | page :: pages' => tokenAfter (NextPageToken page) pages'
  end.

(** What [main] does only after the listing, when it filters and exports. *)
Definition afterListing (e : Effect) : bool :=
  match e with
  | Getenv name => bool_decide (name = "TOGETHER_API_KEY")
  | CallFilterDocuments _ | ReadLine | Download _ _ | MkdirAll _ | Create _
  | Copy _ | CloseFile _ | CloseBody _ => true
  | _ => false
  end.

Definition readsTogetherKey (e : Effect) : bool :=
  match e with
  | Getenv name => bool_decide (name = "TOGETHER_API_KEY")
  | _ => false
  end.

(** A cleaned line that [FilterDocuments] keeps as a candidate. *)
Definition keptCandidate (cleaned : string) : Prop :=
  cleaned ≠ "" ∧ cleaned ≠ "NONE".

#[global] Instance keptCandidate_dec cleaned : Decision (keptCandidate cleaned).
Proof. unfold keptCandidate. apply _. Defined.

(** [inner] occurs in [s] as a run of consecutive bytes. *)
Definition substringOf (inner s : string) : Prop :=
  ∃ before after, s = before +:+ inner +:+ after.

(** The nine bytes [SanitizeFilename] replaces. *)
Definition invalidBytes : list ascii :=
  ["\"; "/"; ":"; "*"; "?"; "034"; "<"; ">"; "|"]%char.

Definition sanitizeByte (c : ascii) : ascii :=
  if bool_decide (c ∈ invalidBytes) then "_"%char else c.

Definition replaceByte (old new c : ascii) : ascii :=
  if Ascii.eqb c old then new else c.

(** One of the nine bytes occurs in [s]. *)
Definition hasInvalidByte (s : string) : bool :=
  anyByte (λ c, bool_decide (c ∈ invalidBytes)) s.

(** A path separator, of either platform, occurs in [s]. *)
Definition hasSeparator (s : string) : bool :=
  anyByte (λ c, Ascii.eqb c "/"%char || Ascii.eqb c "\"%char) s.

(** The keys of [ExportFormats]. *)
Definition formatKeys : list string :=
  ["pdf"; "docx"; "odt"; "rtf"; "txt"; "html"; "epub"; "md"; "markdown"].

(** The text of the line for the document at position [index] (from 0), as
    the specification words it. *)
Definition documentLine (index : nat) (document : GoogleDocument) : string :=
  formatInt (index + 1) +:+ ". " +:+ Name document
  +:+ (if bool_decide (Description document = "") then ""
       else " - " +:+ Description document).

Definition concatStrings (parts : list string) : string :=
  foldr String.append "" parts.

Definition noNewline (s : string) : Prop :=
  anyByte (Ascii.eqb "010"%char) s = false.

(** The number of newline bytes in [s], and in the names and descriptions
    of a document list. *)
Fixpoint newlines (s : string) : nat :=
  match s with
  | EmptyString => 0
  | String c s' => (if Ascii.eqb "010"%char c then 1 else 0) + newlines s'
  end.

Definition fieldNewlines (documents : list GoogleDocument) : nat :=
  sum_list
    ((λ document, newlines (Name document) + newlines (Description document))
       <$> documents).

(** ** Inputs the definitions are run on *)

Definition alpha : GoogleDocument := doc "Alpha" "".
Definition beta : GoogleDocument := doc "Beta" "".
Definition gamma : GoogleDocument := doc "Gamma" "".

Definition someFilter : DocumentFilter := {| apiKey := "key" |}.

(** The body of an API error: an error object and no completions. *)
Definition errorBody : TogetherResponse :=
  {| Choices := []; Error := Some "Invalid API key" |}.

(** A body that carries both an error object and a completion whose content
    is "NONE". *)
Definition errorBodyWithNONE : TogetherResponse :=
  {| Choices := [ {| Message_Content := "NONE" |} ];
     Error := Some "Invalid API key" |}.

(** A document whose description runs over two lines, the second of which
    looks like an entry of the list. *)
Definition twoLines : GoogleDocument :=
  doc "A" ("x" +:+ newline +:+ "2. Fake").

Definition pdf : ExportFormat :=
  {| MimeType := "application/pdf"; Extension := ".pdf" |}.

(** An export in which every step succeeds, and one whose download is
    refused. *)
Definition exportSucceeds : ExportOutcomes :=
  {| download := inr "%PDF"; mkdirAll := None; create := None; copy := inr 4 |}.

Definition downloadRefused : ExportOutcomes :=
  {| download := inl "403 Forbidden"; mkdirAll := None; create := None;
     copy := inr 0 |}.

Definition fileOf (id name : string) : DriveFile :=
  {| file_Id := id; file_Name := name; file_Description := "";
     file_ModifiedTime := "2024-01-01T00:00:00Z";
     file_CreatedTime := "2024-01-01T00:00:00Z" |}.

Definition firstPage : FileList :=
  {| Files := [fileOf "1" "Alpha"; fileOf "2" "Beta"]; NextPageToken := "t1" |}.

Definition lastPage : FileList :=
  {| Files := [fileOf "3" "Gamma"]; NextPageToken := "" |}.

(** * Properties *)

(** ** Byte strings *)

Lemma append_nil_l (s : string) : "" +:+ s = s.
Proof. reflexivity. Qed.

Lemma append_cons (c : ascii) (s t : string) :
  String c s +:+ t = String c (s +:+ t).
Proof. reflexivity. Qed.

(** [String.append] does not unfold under [simpl]: it is rewritten. *)
Ltac unfold_append := rewrite ?append_cons, ?append_nil_l in *.

Lemma append_empty_r (s : string) : s +:+ "" = s.
Proof. induction s as [|c s IH]; unfold_append; [done | by f_equal]. Qed.

Lemma append_assoc (a b c : string) : (a +:+ b) +:+ c = a +:+ (b +:+ c).
Proof. induction a as [|x a IH]; unfold_append; [done | by f_equal]. Qed.

Lemma HasPrefix_spec (s prefix : string) :
  HasPrefix s prefix = true ↔ ∃ rest, s = prefix +:+ rest.
Proof.
  revert s. induction prefix as [|p prefix IH]; intros s; simpl.
  - split; [intros _; by exists s | done].
  - destruct s as [|c s].
    + split; [done | intros [rest Hrest]; discriminate].
    + rewrite andb_true_iff, IH. split.
      * intros [Hc [rest ->]]. apply Ascii.eqb_eq in Hc as ->. by exists rest.
      * intros [rest Hrest]. unfold_append. injection Hrest as -> ->.
        split; [apply Ascii.eqb_refl | by exists rest].
Qed.

Lemma Contains_spec (s substr : string) :
  Contains s substr = true ↔ ∃ before after, s = before +:+ substr +:+ after.
Proof.
  unfold Contains. induction s as [|c s IH].
  - simpl. destruct (HasPrefix "" substr) eqn:Hp.
    + split; [intros _ | done].
      apply HasPrefix_spec in Hp as [rest ->]. by exists "", rest.
    + split; [done | intros (before & after & Heq)].
      destruct before; unfold_append; [|discriminate].
      assert (HasPrefix "" substr = true) as Hp'
        by (apply HasPrefix_spec; by exists after).
      congruence.
  - cbn [Index]. destruct (HasPrefix (String c s) substr) eqn:Hp.
    + split; [intros _ | done].
      apply HasPrefix_spec in Hp as [rest ->]. by exists "", rest.
    + destruct (Index s substr) as [i|] eqn:Hi; simpl.
      * split; [intros _ | done].
        destruct IH as [IH _]. destruct (IH eq_refl) as (before & after & ->).
        by exists (String c before), after.
      * split; [done | intros (before & after & Heq)].
        destruct before as [|b before]; unfold_append.
        -- assert (HasPrefix (String c s) substr = true) as Hp'
             by (apply HasPrefix_spec; by exists after).
           congruence.
        -- injection Heq as -> ->. destruct IH as [_ IH].
           discriminate IH. by exists before, after.
Qed.

Lemma Contains_empty (s : string) : Contains s "" = true.
Proof. unfold Contains. destruct s; simpl; done. Qed.

(** ** Case on ASCII strings *)

Lemma asciiBytes_complete (c : ascii) : nonASCII c = false → c ∈ asciiBytes.
Proof.
  intros Hc. unfold asciiBytes. apply list_elem_of_fmap.
  exists (nat_of_ascii c). split; [by rewrite ascii_nat_embedding|].
  apply elem_of_seq. unfold nonASCII, RuneSelf in Hc.
  apply N.leb_gt in Hc. unfold nat_of_ascii. lia.
Qed.

Lemma foldsTo_lowerByte (sr tr : ascii) :
  nonASCII sr = false → nonASCII tr = false →
  foldsTo sr tr = Ascii.eqb (lowerByte sr) (lowerByte tr).
Proof.
  intros Hsr Htr.
  assert (forallb (λ a, forallb (λ b,
            Bool.eqb (foldsTo a b) (Ascii.eqb (lowerByte a) (lowerByte b)))
            asciiBytes) asciiBytes = true) as Hall
    by (vm_compute; reflexivity).
  rewrite forallb_forall in Hall.
  specialize (Hall sr (proj1 (list_elem_of_In _ _) (asciiBytes_complete sr Hsr))).
  rewrite forallb_forall in Hall.
  specialize (Hall tr (proj1 (list_elem_of_In _ _) (asciiBytes_complete tr Htr))).
  by apply Bool.eqb_prop in Hall.
Qed.

Section ASCII.
Context `{UnicodeTables}.

Lemma ToLower_ascii (s : string) :
  isASCII s = true → ToLower s = mapBytes lowerByte s.
Proof.
  unfold ToLower, isASCII. intros ->.
  destruct (anyByte isUpperASCII s) eqn:Hupper; [done|].
  induction s as [|c s IH]; [done|].
  cbn [anyByte] in Hupper. apply orb_false_iff in Hupper as [Hc Hs].
  cbn [mapBytes]. unfold lowerByte at 1. rewrite Hc. f_equal. by apply IH.
Qed.

(** On ASCII strings [EqualFold] is equality of the lowered strings. *)
Lemma EqualFold_ascii (s t : string) :
  isASCII s = true → isASCII t = true →
  EqualFold s t = true ↔ mapBytes lowerByte s = mapBytes lowerByte t.
Proof.
  unfold isASCII. revert t.
  induction s as [|sr s IH]; intros [|tr t] Hs Ht; cbn [EqualFold mapBytes];
    try done.
  cbn [allBytes] in Hs, Ht.
  apply andb_true_iff in Hs as [Hsr Hs]. apply andb_true_iff in Ht as [Htr Ht].
  apply negb_true_iff in Hsr, Htr. rewrite Hsr, Htr. cbn [orb].
  pose proof (foldsTo_lowerByte sr tr Hsr Htr) as Hfold. unfold foldsTo in Hfold.
  destruct (Ascii.eqb tr sr) eqn:Heq.
  - cbn [orb] in Hfold. symmetry in Hfold. apply Ascii.eqb_eq in Hfold.
    rewrite IH by done. split; [intros ->; by rewrite Hfold|].
    intros Hlower. by injection Hlower.
  - cbn [orb] in Hfold. cbv zeta. cbv zeta in Hfold. rewrite Hfold.
    destruct (Ascii.eqb (lowerByte sr) (lowerByte tr)) eqn:Hlow.
    + apply Ascii.eqb_eq in Hlow. rewrite IH by done.
      split; [intros ->; by rewrite Hlow|]. intros Hlower. by injection Hlower.
    + apply Ascii.eqb_neq in Hlow. split; [done|].
      intros Hlower. by injection Hlower.
Qed.
(** On ASCII names the test of [FindMatchingDocuments] is containment of
    the lowered candidate in the lowered display name. *)
Lemma nameMatches_ascii (document : GoogleDocument) (name : string) :
  isASCII (Name document) = true → isASCII name = true →
  nameMatches document name = true ↔
  ∃ before after,
    mapBytes lowerByte (Name document)
    = before +:+ mapBytes lowerByte name +:+ after.
Proof.
  intros Hdocument Hname. unfold nameMatches.
  rewrite orb_true_iff, Contains_spec, EqualFold_ascii by done.
  rewrite !ToLower_ascii by done. split; [|by right].
  intros [Hequal | Hinside]; [|done].
  exists "", "". by rewrite Hequal, append_empty_r.
Qed.
End ASCII.

(** ** [FindMatchingDocuments] *)

Section FindMatching.
Context `{UnicodeTables}.

Lemma nameMatches_spec document name :
  nameMatches document name = true ↔
  EqualFold (Name document) name = true
  ∨ ∃ before after,
      ToLower (Name document) = before +:+ ToLower name +:+ after.
Proof. unfold nameMatches. by rewrite orb_true_iff, Contains_spec. Qed.

Lemma scanNames_matched document matchingNames matches :
  matchedBy matchingNames document →
  scanNames document matchingNames matches = matches ++ [document].
Proof.
  unfold matchedBy. induction 1 as [name rest Hm | name rest Hm IH]; simpl.
  - by rewrite Hm.
  - destruct (nameMatches document name); done.
Qed.

Lemma scanNames_unmatched document matchingNames matches :
  ¬ matchedBy matchingNames document →
  scanNames document matchingNames matches = matches.
Proof.
  unfold matchedBy. induction matchingNames as [|name rest IH]; simpl; [done|].
  intros Hno. destruct (nameMatches document name) eqn:Hm.
  - destruct Hno. by left.
  - apply IH. intros Hrest. apply Hno. by right.
Qed.

Lemma fold_scanNames documents matchingNames matches :
  fold_left (λ matches document, scanNames document matchingNames matches)
    documents matches
  = matches ++ filter (matchedBy matchingNames) documents.
Proof.
  revert matches. induction documents as [|document rest IH]; intros matches.
  - simpl. by rewrite app_nil_r.
  - cbn [fold_left]. rewrite IH.
    destruct (decide (matchedBy matchingNames document)) as [Hm|Hm].
    + rewrite scanNames_matched, filter_cons_True by done.
      by rewrite <- app_assoc.
    + by rewrite scanNames_unmatched, filter_cons_False.
Qed.

Lemma FindMatchingDocuments_filter documents matchingNames :
  FindMatchingDocuments documents matchingNames
  = filter (matchedBy matchingNames) documents.
Proof. unfold FindMatchingDocuments. by rewrite fold_scanNames. Qed.

Lemma matchedBy_ext names1 names2 document :
  (∀ name, name ∈ names1 ↔ name ∈ names2) →
  matchedBy names1 document ↔ matchedBy names2 document.
Proof.
  intros Hsame. unfold matchedBy. rewrite !Exists_exists.
  split; intros (name & Hin & Hm); exists name; split; try done;
    by apply Hsame.
Qed.

(** C1: a document is in the result exactly when one of the candidate
    names is equal to its display name up to case ([EqualFold]) or, once
    lowered, occurs inside its lowered display name.  For ASCII names this
    is said without the library's help: up to case means that the two
    strings are equal once each of the 26 bytes A to Z is replaced by the
    lower-case letter and every other byte is kept, and lowered means that
    replacement; so "report" and "REPORT" both find "Quarterly Report
    Draft", and "Reports" does not.  Within the inner loop the first
    candidate that matches appends the document once and ends the scan,
    whatever the candidates after it are, so the result keeps each entry of
    the document list at most once (it is the document list filtered). *)
Theorem FindMatchingDocuments_matched_exactly
    (documents : list GoogleDocument) (matchingNames : list string) :
  (∀ document,
     document ∈ FindMatchingDocuments documents matchingNames ↔
     document ∈ documents ∧
     ∃ name, name ∈ matchingNames ∧
       (EqualFold (Name document) name = true
        ∨ ∃ before after,
            ToLower (Name document) = before +:+ ToLower name +:+ after))
  ∧ (∀ document skipped name later matches,
       Forall (λ n, nameMatches document n = false) skipped →
       nameMatches document name = true →
       scanNames document (skipped ++ name :: later) matches
       = matches ++ [document])
  ∧ FindMatchingDocuments documents matchingNames
    = filter (matchedBy matchingNames) documents
  ∧ FindMatchingDocuments [doc "Quarterly Report Draft" ""] ["Report"]
    = [doc "Quarterly Report Draft" ""]
  ∧ (∀ document,
       isASCII (Name document) = true →
       Forall (λ name, isASCII name = true) matchingNames →
       document ∈ FindMatchingDocuments documents matchingNames ↔
       document ∈ documents ∧
       ∃ name, name ∈ matchingNames ∧
         (mapBytes lowerByte (Name document) = mapBytes lowerByte name
          ∨ ∃ before after,
              mapBytes lowerByte (Name document)
              = before +:+ mapBytes lowerByte name +:+ after))
  ∧ mapBytes lowerByte "ABCDEFGHIJKLMNOPQRSTUVWXYZ"
    = "abcdefghijklmnopqrstuvwxyz"
  ∧ (∀ c, anyByte (Ascii.eqb c) "ABCDEFGHIJKLMNOPQRSTUVWXYZ" = false →
          lowerByte c = c)
  ∧ FindMatchingDocuments [doc "Quarterly Report Draft" ""] ["report"]
    = [doc "Quarterly Report Draft" ""]
  ∧ FindMatchingDocuments [doc "Quarterly Report Draft" ""] ["REPORT"]
    = [doc "Quarterly Report Draft" ""]
  ∧ FindMatchingDocuments [doc "Quarterly Report Draft" ""]
      ["quarterly report DRAFT"]
    = [doc "Quarterly Report Draft" ""]
  ∧ FindMatchingDocuments [doc "Quarterly Report Draft" ""] ["Reports"] = [].
Proof.
  split_and!.
  - intros document. rewrite FindMatchingDocuments_filter, list_elem_of_filter.
    unfold matchedBy. rewrite Exists_exists.
    setoid_rewrite nameMatches_spec. tauto.
  - intros document skipped name later matches Hskipped Hname.
    induction Hskipped as [|n skipped Hn _ IH]; simpl.
    + by rewrite Hname.
    + by rewrite Hn.
  - apply FindMatchingDocuments_filter.
  - vm_compute. reflexivity.
  - intros document Hdocument Hnames.
    rewrite FindMatchingDocuments_filter, list_elem_of_filter.
    unfold matchedBy. rewrite Exists_exists, Forall_forall in *.
    split.
    + intros [(name & Hname & Hmatch) Hin]. split; [done|].
      exists name. split; [done|]. right.
      by apply nameMatches_ascii; [done | apply Hnames|].
    + intros (Hin & name & Hname & Hmatch). split; [|done].
      exists name. split; [done|].
      apply nameMatches_ascii; [done | by apply Hnames|].
      destruct Hmatch as [Hequal | Hinside]; [|done].
      exists "", "". by rewrite Hequal, append_empty_r.
  - vm_compute. reflexivity.
  - intros c. destruct c as [[] [] [] [] [] [] [] []]; vm_compute; congruence.
  - vm_compute. reflexivity.
  - vm_compute. reflexivity.
  - vm_compute. reflexivity.
  - vm_compute. reflexivity.
Qed.

(** C2: the result is a subsequence of the document list: its elements are
    records of that list, in the order of that list; it depends on the
    candidates only through which names occur among them, not on their
    order or repetition; and documents that are distinct in the list
    (distinct identifiers) stay distinct in the result, however many
    candidates match one of them. *)
Theorem FindMatchingDocuments_subsequence
    (documents : list GoogleDocument) (matchingNames : list string) :
  FindMatchingDocuments documents matchingNames `sublist_of` documents
  ∧ (∀ document,
       document ∈ FindMatchingDocuments documents matchingNames →
       document ∈ documents)
  ∧ (∀ otherNames,
       (∀ name, name ∈ matchingNames ↔ name ∈ otherNames) →
       FindMatchingDocuments documents otherNames
       = FindMatchingDocuments documents matchingNames)
  ∧ (NoDup documents →
     NoDup (FindMatchingDocuments documents matchingNames))
  ∧ (NoDup (ID <$> documents) →
     NoDup (ID <$> FindMatchingDocuments documents matchingNames)).
Proof.
  assert (FindMatchingDocuments documents matchingNames
            `sublist_of` documents) as Hsub.
  { rewrite FindMatchingDocuments_filter. apply sublist_filter. }
  split; [done|]. split; [|split; [|split]].
  - intros document Hin. by eapply elem_of_sublist.
  - intros otherNames Hsame. rewrite !FindMatchingDocuments_filter.
    apply list_filter_iff. intros document. symmetry.
    by apply matchedBy_ext.
  - intros Hnodup. by eapply sublist_NoDup.
  - intros Hnodup. eapply sublist_NoDup; [done|]. by apply fmap_sublist.
Qed.

Lemma nameMatches_empty document : nameMatches document "" = true.
Proof.
  unfold nameMatches. change (ToLower "") with "".
  rewrite Contains_empty. apply orb_true_r.
Qed.

(** C9: when the empty string is among the candidate names, every
    document of the list is in the result: the result is the list. *)
Theorem FindMatchingDocuments_empty_candidate
    (documents : list GoogleDocument) (matchingNames : list string) :
  "" ∈ matchingNames →
  FindMatchingDocuments documents matchingNames = documents.
Proof.
  intros Hin. rewrite FindMatchingDocuments_filter.
  induction documents as [|document rest IH]; [done|].
  rewrite filter_cons_True, IH; [done|].
  unfold matchedBy. apply Exists_exists. exists "".
  split; [done | apply nameMatches_empty].
Qed.
End FindMatching.

(** Witness for C1, at the documents Alpha and "Quarterly Report Draft" and
    the candidates "zzz", "REPORT": the second candidate is found inside the
    display name once both are lowered; and in the inner loop the first
    candidate that matches Beta ends the scan. *)
Lemma FindMatchingDocuments_matched_exactly_witness :
  doc "Quarterly Report Draft" ""
    ∈ @FindMatchingDocuments noTables
        [alpha; doc "Quarterly Report Draft" ""] ["zzz"; "REPORT"]
  ∧ @scanNames noTables beta (["alpha"] ++ "beta" :: ["BETA"]) [alpha]
    = [alpha] ++ [beta].
Proof.
  destruct (@FindMatchingDocuments_matched_exactly noTables
              [alpha; doc "Quarterly Report Draft" ""] ["zzz"; "REPORT"])
    as (_ & Hbreak & _ & _ & Hascii & _).
  split.
  - apply Hascii.
    + reflexivity.
    + repeat constructor.
    + split.
      * apply list_elem_of_In. simpl. tauto.
      * exists "REPORT". split.
        -- apply list_elem_of_In. simpl. tauto.
        -- right. exists "quarterly ", " draft". reflexivity.
  - apply Hbreak.
    + repeat constructor.
    + reflexivity.
Defined.

(** Witness for C2, at the documents Alpha, Beta, Gamma: candidates in another order and
    with a repetition select the same documents, in the list's order. *)
Lemma FindMatchingDocuments_subsequence_witness :
  @FindMatchingDocuments noTables [alpha; beta; gamma] ["gamma"; "alpha"; "ALPHA"; "gamma"]
  = @FindMatchingDocuments noTables [alpha; beta; gamma] ["alpha"; "ALPHA"; "gamma"]
  ∧ NoDup (ID <$> @FindMatchingDocuments noTables [alpha; beta; gamma]
                    ["alpha"; "ALPHA"; "gamma"]).
Proof.
  destruct (@FindMatchingDocuments_subsequence noTables
              [alpha; beta; gamma] ["alpha"; "ALPHA"; "gamma"])
    as (_ & _ & Hnames & _ & Hids).
  split.
  - apply Hnames. intros name. rewrite !list_elem_of_In. simpl. tauto.
  - apply Hids. apply NoDup_ListNoDup. repeat constructor; simpl; intuition discriminate.
Defined.

(** Witness for C9, at the documents Alpha, Beta and the candidates "zzz", "". *)
Lemma FindMatchingDocuments_empty_candidate_witness :
  "" ∈ ["zzz"; ""]
  ∧ @FindMatchingDocuments noTables [alpha; beta] ["zzz"; ""] = [alpha; beta].
Proof.
  assert ("" ∈ ["zzz"; ""]) as Hin by (apply list_elem_of_In; simpl; tauto).
  split; [exact Hin|].
  exact (@FindMatchingDocuments_empty_candidate noTables [alpha; beta]
           ["zzz"; ""] Hin).
Defined.

(** ** [SanitizeFilename] *)

Lemma mapBytes_mapBytes (f g : ascii → ascii) (s : string) :
  mapBytes f (mapBytes g s) = mapBytes (λ c, f (g c)) s.
Proof. induction s as [|c s IH]; simpl; [done | by rewrite IH]. Qed.

Lemma mapBytes_ext (f g : ascii → ascii) (s : string) :
  (∀ c, f c = g c) → mapBytes f s = mapBytes g s.
Proof. intros Hfg. induction s as [|c s IH]; simpl; [done | by rewrite Hfg, IH]. Qed.

Lemma mapBytes_len (f : ascii → ascii) (s : string) :
  len (mapBytes f s) = len s.
Proof. unfold len. induction s as [|c s IH]; simpl; [done | by rewrite IH]. Qed.

Lemma mapBytes_byteAt (f : ascii → ascii) (s : string) (i : nat) :
  byteAt (mapBytes f s) i = f <$> byteAt s i.
Proof.
  unfold byteAt. revert i. induction s as [|c s IH]; intros i; simpl; [done|].
  destruct i as [|i]; [done | apply IH].
Qed.

(** Replacing a one-byte pattern by a one-byte string is a map over the
    bytes. *)
Lemma ReplaceAll_byte (s : string) (old new : ascii) :
  ReplaceAll s (String old "") (String new "") = mapBytes (replaceByte old new) s.
Proof.
  unfold ReplaceAll. induction s as [|c s IH]; [done|].
  cbn [replaceFrom HasPrefix mapBytes]. unfold replaceByte at 1.
  rewrite andb_true_r. cbn [len String.length Nat.sub].
  destruct (Ascii.eqb c old); unfold_append; congruence.
Qed.

Lemma invalidChars_bytes :
  invalidChars = (λ c, String c "") <$> invalidBytes.
Proof. reflexivity. Qed.

Lemma sanitizeByte_replaces (c : ascii) :
  fold_left (λ b old, replaceByte old "_"%char b) invalidBytes c = sanitizeByte c.
Proof. destruct c as [[] [] [] [] [] [] [] []]; vm_compute; reflexivity. Qed.

Lemma fold_ReplaceAll_bytes (olds : list ascii) (f : ascii → ascii) (s : string) :
  fold_left (λ result char, ReplaceAll result char "_")
    ((λ c, String c "") <$> olds) (mapBytes f s)
  = mapBytes (λ c, fold_left (λ b old, replaceByte old "_"%char b) olds (f c)) s.
Proof.
  revert f. induction olds as [|old olds IH]; intros f; [done|].
  cbn [fmap list_fmap fold_left]. rewrite ReplaceAll_byte, mapBytes_mapBytes.
  apply (IH (λ c, replaceByte old "_"%char (f c))).
Qed.

Lemma mapBytes_id (s : string) : mapBytes (λ c, c) s = s.
Proof. induction s as [|c s IH]; simpl; [done | by rewrite IH]. Qed.

Lemma SanitizeFilename_map (name : string) :
  SanitizeFilename name = mapBytes sanitizeByte name.
Proof.
  unfold SanitizeFilename. rewrite invalidChars_bytes.
  rewrite <- (mapBytes_id name) at 1. rewrite fold_ReplaceAll_bytes.
  apply mapBytes_ext, sanitizeByte_replaces.
Qed.

Lemma sanitizeByte_idempotent (c : ascii) :
  sanitizeByte (sanitizeByte c) = sanitizeByte c.
Proof.
  unfold sanitizeByte at 2 3. case_bool_decide as Hinvalid; [reflexivity|].
  unfold sanitizeByte. by rewrite bool_decide_false.
Qed.

(** C8: [SanitizeFilename] turns each of the nine bytes
    \ / : * ? (double quote) < > | into an underscore and leaves every other
    byte, and so the length and every position, as they were;
    "Report: Q1/Q2?" becomes "Report_ Q1_Q2_"; the export's file name is the
    sanitized display name followed by the format's extension. *)
Theorem SanitizeFilename_replaces_each_invalid_byte (name : string) :
  SanitizeFilename name
  = mapBytes (λ c, if bool_decide (c ∈ invalidBytes) then "_"%char else c) name
  ∧ invalidChars = (λ c, String c "") <$> invalidBytes
  ∧ len (SanitizeFilename name) = len name
  ∧ (∀ i, byteAt (SanitizeFilename name) i
          = (λ c, if bool_decide (c ∈ invalidBytes) then "_"%char else c)
              <$> byteAt name i)
  ∧ SanitizeFilename "Report: Q1/Q2?" = "Report_ Q1_Q2_"
  ∧ (∀ document format,
       exportDocument_filename document format
       = SanitizeFilename (Name document) +:+ Extension format)
  ∧ exportDocument_filename (doc "Report: Q1/Q2?" "")
      {| MimeType := "application/pdf"; Extension := ".pdf" |}
    = "Report_ Q1_Q2_.pdf".
Proof.
  rewrite SanitizeFilename_map. repeat split.
  - apply mapBytes_len.
  - intros i. apply mapBytes_byteAt.
Qed.

(** C10: sanitizing a sanitized name changes nothing. *)
Theorem SanitizeFilename_idempotent (s : string) :
  SanitizeFilename (SanitizeFilename s) = SanitizeFilename s.
Proof.
  rewrite !SanitizeFilename_map, mapBytes_mapBytes.
  apply mapBytes_ext, sanitizeByte_idempotent.
Qed.

(** ** The document section of the prompt *)

Lemma writeDocument_line documentList index document :
  writeDocument documentList index document
  = documentList +:+ (documentLine index document +:+ newline).
Proof.
  unfold writeDocument, documentLine.
  destruct (bool_decide (Description document = "")); simpl;
    rewrite ?append_assoc, ?append_empty_r; reflexivity.
Qed.

Lemma writeDocuments_lines documents index documentList :
  writeDocuments documents index documentList
  = documentList
    +:+ concatStrings
          (imap (λ i document, documentLine (index + i) document +:+ newline)
             documents).
Proof.
  revert index documentList.
  induction documents as [|document rest IH]; intros index documentList.
  - simpl. by rewrite append_empty_r.
  - cbn [writeDocuments imap concatStrings foldr].
    rewrite IH, writeDocument_line, !append_assoc, Nat.add_0_r.
    fold (concatStrings
            (imap ((λ i d, documentLine (index + i) d +:+ newline) ∘ S) rest)).
    do 4 f_equal. apply imap_ext. intros i d _. simpl. do 2 f_equal. lia.
Qed.

Lemma noNewline_app (a b : string) :
  noNewline (a +:+ b) ↔ noNewline a ∧ noNewline b.
Proof.
  unfold noNewline. induction a as [|c a IH]; unfold_append; simpl.
  - tauto.
  - rewrite !orb_false_iff, IH. tauto.
Qed.

Lemma noNewline_digits (u : Decimal.uint) :
  noNewline (NilEmpty.string_of_uint u).
Proof. unfold noNewline. induction u; simpl; done. Qed.

Lemma noNewline_formatInt (n : nat) : noNewline (formatInt n).
Proof. apply noNewline_digits. Qed.

Lemma noNewline_documentLine index document :
  noNewline (Name document) → noNewline (Description document) →
  noNewline (documentLine index document).
Proof.
  intros Hname Hdescription. unfold documentLine.
  rewrite !noNewline_app. split_and!; try done.
  - apply noNewline_formatInt.
  - destruct (bool_decide _); [done|].
    apply noNewline_app. by split.
Qed.

(** [strings.Split] on a newline cuts at the first newline. *)
Lemma splitFrom_newline (line cur rest : string) :
  noNewline line →
  splitFrom newline 0 cur (line +:+ newline +:+ rest)
  = (cur +:+ line) :: splitFrom newline 0 "" rest.
Proof.
  unfold noNewline. revert cur.
  induction line as [|c line IH]; intros cur Hline; unfold_append.
  - by rewrite append_empty_r.
  - cbn [anyByte] in Hline. apply orb_false_iff in Hline as [Hc Hline].
    cbn [splitFrom HasPrefix newline]. rewrite Ascii.eqb_sym, Hc.
    cbn [andb]. fold newline. rewrite IH by done.
    by rewrite append_assoc.
Qed.

Lemma Split_lines (lines : list string) :
  Forall noNewline lines →
  Split (concatStrings ((λ line, line +:+ newline) <$> lines)) newline
  = lines ++ [""].
Proof.
  unfold Split. cbn [newline].
  change (String "010"%char "") with newline.
  induction 1 as [|line lines Hline _ IH]; [done|].
  cbn [fmap list_fmap concatStrings foldr]. rewrite append_assoc.
  rewrite splitFrom_newline by done. unfold_append.
  fold (concatStrings ((λ line0, line0 +:+ newline) <$> lines)).
  by rewrite IH.
Qed.

Lemma newlines_append (a b : string) :
  newlines (a +:+ b) = newlines a + newlines b.
Proof.
  induction a as [|c a IH]; unfold_append; [done|].
  cbn [newlines]. rewrite IH. lia.
Qed.

Lemma noNewline_newlines (s : string) : noNewline s ↔ newlines s = 0.
Proof.
  unfold noNewline. induction s as [|c s IH]; [done|].
  cbn [anyByte newlines]. rewrite orb_false_iff, IH.
  destruct (Ascii.eqb "010"%char c); [split; [by intros [] | lia]|].
  split; [by intros [_ ?] | done].
Qed.

Lemma newlines_documentLine index document :
  newlines (documentLine index document)
  = newlines (Name document) + newlines (Description document).
Proof.
  unfold documentLine. rewrite !newlines_append.
  rewrite (proj1 (noNewline_newlines _) (noNewline_formatInt (index + 1))).
  case_bool_decide as Hdescription.
  - rewrite Hdescription. simpl. lia.
  - rewrite newlines_append. simpl. lia.
Qed.

Lemma fieldNewlines_cons document rest :
  fieldNewlines (document :: rest)
  = newlines (Name document) + newlines (Description document)
    + fieldNewlines rest.
Proof. reflexivity. Qed.

Lemma newlines_entries documents index :
  newlines
    (concatStrings
       (imap (λ i document, documentLine (index + i) document +:+ newline)
          documents))
  = length documents + fieldNewlines documents.
Proof.
  unfold fieldNewlines. revert index.
  induction documents as [|document rest IH]; intros index; [done|].
  cbn [imap concatStrings foldr fmap list_fmap sum_list length].
  fold (concatStrings
          (imap ((λ i d, documentLine (index + i) d +:+ newline) ∘ S) rest)).
  rewrite (imap_ext _ (λ i d, documentLine (S index + i) d +:+ newline));
    [|intros i d _; simpl; do 2 f_equal; lia].
  rewrite !newlines_append, newlines_documentLine, IH. simpl. lia.
Qed.

(** [strings.Split] on a newline returns one field more than there are
    newlines. *)
Lemma splitFrom_newline_length (cur s : string) :
  length (splitFrom newline 0 cur s) = S (newlines s).
Proof.
  revert cur. induction s as [|c s IH]; intros cur; [done|].
  cbn [splitFrom HasPrefix newline newlines]. rewrite Ascii.eqb_sym.
  destruct (Ascii.eqb "010"%char c); cbn [andb len String.length Nat.sub].
  - fold newline. cbn [length]. by rewrite IH.
  - fold newline. by rewrite IH.
Qed.

(** C7, as the code has it: the document section of the prompt is, in list
    order, one entry per document, each the text "<index>. <name>", with
    " - <description>" after it exactly when the description is not empty,
    followed by a newline; the index counts from 1.  Names and descriptions
    are written as they are: the section has one line per document and one
    more for each newline inside a name or a description, so its lines are
    the entries (followed by the empty string after the last newline)
    exactly when no name and no description holds a newline. *)
Theorem documentList_lines (documents : list GoogleDocument) :
  documentList documents
  = concatStrings
      (imap (λ index document, documentLine index document +:+ newline)
         documents)
  ∧ (∀ index document,
       documents !! index = Some document →
       imap documentLine documents !! index
       = Some (formatInt (index + 1) +:+ ". " +:+ Name document
               +:+ (if bool_decide (Description document = "") then ""
                    else " - " +:+ Description document)))
  ∧ length (imap documentLine documents) = length documents
  ∧ (Forall (λ document, noNewline (Name document)
                         ∧ noNewline (Description document)) documents →
     Split (documentList documents) newline
     = imap documentLine documents ++ [""])
  ∧ (∀ query,
       buildPrompt documents query
       = promptBeforeList
         +:+ concatStrings
               (imap (λ index document,
                        documentLine index document +:+ newline) documents)
         +:+ promptBeforeQuery +:+ query +:+ promptAfterQuery)
  ∧ documentList [doc "Alpha" ""; doc "Beta" "second"]
    = "1. Alpha" +:+ newline +:+ "2. Beta - second" +:+ newline
  ∧ length (Split (documentList documents) newline)
    = length documents + fieldNewlines documents + 1
  ∧ (Split (documentList documents) newline
     = imap documentLine documents ++ [""]
     ↔ Forall (λ document, noNewline (Name document)
                           ∧ noNewline (Description document)) documents).
Proof.
  assert (documentList documents
          = concatStrings
              (imap (λ index document, documentLine index document +:+ newline)
                 documents)) as Hlist.
  { unfold documentList. rewrite writeDocuments_lines. unfold_append.
    f_equal. }
  assert (Forall (λ document, noNewline (Name document)
                              ∧ noNewline (Description document)) documents →
          Split (documentList documents) newline
          = imap documentLine documents ++ [""]) as Hsplit.
  { intros Hclean. rewrite Hlist.
    replace (imap (λ index document, documentLine index document +:+ newline)
               documents)
      with ((λ line, line +:+ newline) <$> imap documentLine documents).
    + apply Split_lines. apply Forall_lookup. intros i line Hline.
      rewrite list_lookup_imap in Hline.
      destruct (documents !! i) as [document|] eqn:Hdocument; [|done].
      injection Hline as <-.
      destruct (Forall_lookup_1 _ _ _ _ Hclean Hdocument).
      by apply noNewline_documentLine.
    + by rewrite fmap_imap. }
  assert (length (Split (documentList documents) newline)
          = length documents + fieldNewlines documents + 1) as Hcount.
  { rewrite Hlist. unfold Split. cbn [newline].
    change (String "010"%char "") with newline.
    rewrite splitFrom_newline_length.
    pose proof (newlines_entries documents 0) as Hentries.
    cbn [Nat.add] in Hentries. rewrite Hentries. lia. }
  split; [done|]. split_and!; [| |done| | |done|].
  - intros index document Hlookup.
    by rewrite list_lookup_imap, Hlookup.
  - apply length_imap.
  - intros query. unfold buildPrompt. by rewrite Hlist.
  - vm_compute. reflexivity.
  - split; [|done]. intros Hlines.
    rewrite Hlines, length_app, length_imap in Hcount.
    cbn [length] in Hcount.
    assert (fieldNewlines documents = 0) as Hnone by lia.
    clear -Hnone.
    induction documents as [|document rest IH]; [done|].
    rewrite fieldNewlines_cons in Hnone. constructor.
    + rewrite !noNewline_newlines. lia.
    + apply IH. lia.
Qed.

(** Counterexample to C7 as stated: two documents, the first with a
    description that holds a newline, give a section of three lines (and the
    empty string after the last newline); the second line is no entry of
    the list. *)
Lemma documentList_description_with_newline :
  Split (documentList [twoLines; doc "B" ""]) newline
  = ["1. A - x"; "2. Fake"; "2. B"; ""]
  ∧ imap documentLine [twoLines; doc "B" ""] ++ [""]
    = ["1. A - x" +:+ newline +:+ "2. Fake"; "2. B"; ""]
  ∧ length [twoLines; doc "B" ""] = 2
  ∧ Description twoLines = "x" +:+ newline +:+ "2. Fake".
Proof. repeat split. Qed.

(** ** Reading the answer: the markers at the start of a line *)

Lemma sliceFrom_prefix (n : nat) (s : string) :
  n ≤ len s → ∃ prefix, len prefix = n ∧ s = prefix +:+ sliceFrom n s.
Proof.
  unfold len. revert s. induction n as [|n IH]; intros s Hn.
  - by exists "".
  - destruct s as [|c s]; simpl in Hn; [lia|].
    destruct (IH s) as (prefix & Hlen & Heq); [lia|].
    exists (String c prefix). split; [simpl; by rewrite Hlen|].
    unfold_append. simpl. by rewrite <- Heq.
Qed.

Lemma TrimPrefix_prefixed (prefix rest : string) :
  TrimPrefix (prefix +:+ rest) prefix = rest.
Proof.
  unfold TrimPrefix.
  assert (HasPrefix (prefix +:+ rest) prefix = true) as ->
    by (apply HasPrefix_spec; by exists rest).
  unfold len. induction prefix as [|c prefix IH]; [done|].
  unfold_append. simpl. apply IH.
Qed.

Lemma TrimPrefix_other (s prefix : string) :
  HasPrefix s prefix = false → TrimPrefix s prefix = s.
Proof. unfold TrimPrefix. by intros ->. Qed.

Lemma stripOneDigitPrefix_test (cleaned : string) :
  (3 <? len cleaned)
  && bool_decide (byteAt cleaned 1 = Some "."%char)
  && bool_decide (byteAt cleaned 2 = Some " "%char) = true
  ↔ 3 < len cleaned ∧ byteAt cleaned 1 = Some "."%char
    ∧ byteAt cleaned 2 = Some " "%char.
Proof.
  rewrite !andb_true_iff, Nat.ltb_lt, !bool_decide_eq_true. tauto.
Qed.

Lemma stripTwoDigitPrefix_test (cleaned : string) :
  (4 <? len cleaned)
  && bool_decide (byteAt cleaned 2 = Some "."%char)
  && bool_decide (byteAt cleaned 3 = Some " "%char) = true
  ↔ 4 < len cleaned ∧ byteAt cleaned 2 = Some "."%char
    ∧ byteAt cleaned 3 = Some " "%char.
Proof.
  rewrite !andb_true_iff, Nat.ltb_lt, !bool_decide_eq_true. tauto.
Qed.

Lemma stripOneDigitPrefix_shape (d : ascii) (rest : string) :
  rest ≠ "" → stripOneDigitPrefix (String d (". " +:+ rest)) = rest.
Proof.
  intros Hrest. destruct rest as [|c rest]; [done|]. reflexivity.
Qed.

Lemma stripTwoDigitPrefix_shape (a b : ascii) (rest : string) :
  rest ≠ "" → stripTwoDigitPrefix (String a (String b (". " +:+ rest))) = rest.
Proof.
  intros Hrest. destruct rest as [|c rest]; [done|]. reflexivity.
Qed.

Section Lines.
Context `{UnicodeTables}.

(** C3: after the trim and the bullet markers, a line longer than 3 bytes
    with '.' at index 1 and ' ' at index 2 loses its first three bytes, and
    any other line is left as it is; the outcome of that step, when longer
    than 4 bytes with '.' at index 2 and ' ' at index 3, then loses its
    first four bytes, and is otherwise left as it is.  The second test is
    made whatever the first one did: a line made of one byte, ". ", two
    bytes, ". " and a non-empty rest is cut down to the rest, and
    "1. Dr. Smith" gives the candidate "Smith". *)
Theorem stripNumbering_both_tests_in_sequence (cleaned : string) :
  (3 < len cleaned → byteAt cleaned 1 = Some "."%char →
   byteAt cleaned 2 = Some " "%char →
   stripOneDigitPrefix cleaned = sliceFrom 3 cleaned
   ∧ ∃ prefix, len prefix = 3
       ∧ cleaned = prefix +:+ stripOneDigitPrefix cleaned)
  ∧ (¬ (3 < len cleaned ∧ byteAt cleaned 1 = Some "."%char
        ∧ byteAt cleaned 2 = Some " "%char) →
     stripOneDigitPrefix cleaned = cleaned)
  ∧ (4 < len cleaned → byteAt cleaned 2 = Some "."%char →
     byteAt cleaned 3 = Some " "%char →
     stripTwoDigitPrefix cleaned = sliceFrom 4 cleaned
     ∧ ∃ prefix, len prefix = 4
         ∧ cleaned = prefix +:+ stripTwoDigitPrefix cleaned)
  ∧ (¬ (4 < len cleaned ∧ byteAt cleaned 2 = Some "."%char
        ∧ byteAt cleaned 3 = Some " "%char) →
     stripTwoDigitPrefix cleaned = cleaned)
  ∧ stripNumbering cleaned
    = stripTwoDigitPrefix (stripOneDigitPrefix cleaned)
  ∧ (∀ line, cleanLine line
             = TrimSpace (stripTwoDigitPrefix (stripOneDigitPrefix
                 (stripBullets (TrimSpace line)))))
  ∧ (∀ (d a b : ascii) (rest : string),
       rest ≠ "" →
       stripNumbering (String d (". " +:+ String a (String b (". " +:+ rest))))
       = rest)
  ∧ stripNumbering "1. Dr. Smith" = "Smith"
  ∧ cleanLine "1. Dr. Smith" = "Smith"
  ∧ @FilterDocuments _ (fixedResponse (answer "1. Dr. Smith")) someFilter
      [doc "Dr. Smith" ""] "smith"
    = inr ["Smith"].
Proof.
  split_and!.
  - intros Hlen Hdot Hspace.
    assert (stripOneDigitPrefix cleaned = sliceFrom 3 cleaned) as Hstrip.
    { unfold stripOneDigitPrefix.
      by rewrite (proj2 (stripOneDigitPrefix_test cleaned)). }
    split; [done|]. rewrite Hstrip. apply sliceFrom_prefix. lia.
  - intros Hno. unfold stripOneDigitPrefix.
    destruct (_ && _ && _) eqn:Htest; [|done].
    by apply stripOneDigitPrefix_test in Htest.
  - intros Hlen Hdot Hspace.
    assert (stripTwoDigitPrefix cleaned = sliceFrom 4 cleaned) as Hstrip.
    { unfold stripTwoDigitPrefix.
      by rewrite (proj2 (stripTwoDigitPrefix_test cleaned)). }
    split; [done|]. rewrite Hstrip. apply sliceFrom_prefix. lia.
  - intros Hno. unfold stripTwoDigitPrefix.
    destruct (_ && _ && _) eqn:Htest; [|done].
    by apply stripTwoDigitPrefix_test in Htest.
  - reflexivity.
  - reflexivity.
  - intros d a b rest Hrest. unfold stripNumbering.
    rewrite stripOneDigitPrefix_shape by done.
    by apply stripTwoDigitPrefix_shape.
  - vm_compute. reflexivity.
  - vm_compute. reflexivity.
  - vm_compute. reflexivity.
Qed.

(** C4, as the code has it: a leading "- " is removed when present, and
    then, from what is left, a leading "* " is removed when present.  So a
    line "- * x" loses both markers, a line "* - x" only the "* ", and a
    line that starts with neither is unchanged; "- Example Doc" gives the
    candidate "Example Doc". *)
Theorem stripBullets_dash_then_star (cleaned : string) :
  stripBullets cleaned = TrimPrefix (TrimPrefix cleaned "- ") "* "
  ∧ (∀ rest, stripBullets ("- " +:+ rest) = TrimPrefix rest "* ")
  ∧ (∀ rest, stripBullets ("- * " +:+ rest) = rest)
  ∧ (∀ rest, HasPrefix rest "* " = false →
             stripBullets ("- " +:+ rest) = rest)
  ∧ (∀ rest, stripBullets ("* " +:+ rest) = rest)
  ∧ (HasPrefix cleaned "- " = false → HasPrefix cleaned "* " = false →
     stripBullets cleaned = cleaned)
  ∧ stripBullets "- Example Doc" = "Example Doc"
  ∧ cleanLine "- Example Doc" = "Example Doc"
  ∧ @FilterDocuments _ (fixedResponse (answer "- Example Doc")) someFilter
      [doc "Example Doc" ""] "example"
    = inr ["Example Doc"].
Proof.
  split_and!.
  - reflexivity.
  - intros rest. unfold stripBullets. by rewrite TrimPrefix_prefixed.
  - intros rest. unfold stripBullets.
    change ("- * " +:+ rest) with ("- " +:+ ("* " +:+ rest)).
    by rewrite !TrimPrefix_prefixed.
  - intros rest Hrest. unfold stripBullets.
    by rewrite TrimPrefix_prefixed, TrimPrefix_other.
  - intros rest. unfold stripBullets.
    rewrite (TrimPrefix_other _ "- ") by done.
    apply TrimPrefix_prefixed.
  - intros Hdash Hstar. unfold stripBullets.
    by rewrite (TrimPrefix_other _ "- "), TrimPrefix_other.
  - vm_compute. reflexivity.
  - vm_compute. reflexivity.
  - vm_compute. reflexivity.
Qed.
End Lines.

(** Counterexample to C4 as stated: the line "- * Doc" loses the "- " and then the
    "* " as well. *)
Lemma stripBullets_strips_both_markers :
  HasPrefix "- * Doc" "- " = true
  ∧ TrimPrefix "- * Doc" "- " = "* Doc"
  ∧ stripBullets "- * Doc" = "Doc"
  ∧ @cleanLine noTables "- * Doc" = "Doc"
  ∧ @FilterDocuments noTables (fixedResponse (answer "- * Doc")) someFilter
      [doc "* Doc" ""] "doc"
    = inr ["Doc"].
Proof. repeat split. Qed.

(** ** [FilterDocuments]: the outcome *)

Lemma errorMessage_NoResponse (e : FilterError) :
  errorMessage e = errorMessage NoResponse → e = NoResponse.
Proof. destruct e; intros Hmessage; [vm_compute in Hmessage; discriminate..|done]. Qed.

Lemma asciiSpace_ascii (c : ascii) : asciiSpace c = true → nonASCII c = false.
Proof. destruct c as [[] [] [] [] [] [] [] []]; vm_compute; congruence. Qed.

Lemma allBytes_append (p : ascii → bool) (a b : string) :
  allBytes p (a +:+ b) = allBytes p a && allBytes p b.
Proof.
  induction a as [|c a IH]; unfold_append; [done|].
  cbn [allBytes]. by rewrite IH, andb_assoc.
Qed.

Lemma rev_app_append (s acc : string) :
  String.rev_app s acc = String.rev s +:+ acc.
Proof.
  unfold String.rev. revert acc. induction s as [|c s IH]; intros acc; [done|].
  cbn [String.rev_app]. rewrite (IH (String c acc)), (IH (String c "")).
  by rewrite append_assoc.
Qed.

Lemma rev_append (a b : string) :
  String.rev (a +:+ b) = String.rev b +:+ String.rev a.
Proof.
  induction a as [|c a IH]; unfold_append.
  - by rewrite append_empty_r.
  - unfold String.rev at 1 3. cbn [String.rev_app].
    rewrite !rev_app_append, IH. by rewrite append_assoc.
Qed.

Lemma allBytes_rev (p : ascii → bool) (s : string) :
  allBytes p (String.rev s) = allBytes p s.
Proof.
  induction s as [|c s IH]; [done|].
  change (String c s) with (String c "" +:+ s) at 1.
  rewrite rev_append, allBytes_append, IH.
  change (String.rev (String c "")) with (String c "").
  cbn [allBytes]. rewrite andb_true_r. apply andb_comm.
Qed.

Section Outcome.
Context `{UnicodeTables}.

Lemma TrimSpace_leading (spaces s : string) :
  allBytes asciiSpace spaces = true →
  TrimSpace (spaces +:+ s) = TrimSpace s.
Proof.
  induction spaces as [|c spaces IH]; intros Hspaces; unfold_append; [done|].
  cbn [allBytes] in Hspaces. apply andb_true_iff in Hspaces as [Hc Hspaces].
  cbn [TrimSpace]. rewrite (asciiSpace_ascii c Hc), Hc. by apply IH.
Qed.

Lemma trimSpaceBackward_leading (spaces r : string) :
  allBytes asciiSpace spaces = true →
  trimSpaceBackward (spaces +:+ r) = trimSpaceBackward r.
Proof.
  induction spaces as [|c spaces IH]; intros Hspaces; unfold_append; [done|].
  cbn [allBytes] in Hspaces. apply andb_true_iff in Hspaces as [Hc Hspaces].
  cbn [trimSpaceBackward]. rewrite (asciiSpace_ascii c Hc), Hc. by apply IH.
Qed.

(** Only ASCII white space: nothing is left. *)
Lemma TrimSpace_spaces (spaces : string) :
  allBytes asciiSpace spaces = true → TrimSpace spaces = "".
Proof.
  intros Hspaces. rewrite <- (append_empty_r spaces).
  by rewrite TrimSpace_leading.
Qed.

(** "NONE" between runs of ASCII white space. *)
Lemma TrimSpace_NONE (before after : string) :
  allBytes asciiSpace before = true → allBytes asciiSpace after = true →
  TrimSpace (before +:+ "NONE" +:+ after) = "NONE".
Proof.
  intros Hbefore Hafter. rewrite TrimSpace_leading by done.
  change (TrimSpace ("NONE" +:+ after))
    with (trimSpaceBackward (String.rev ("NONE" +:+ after))).
  rewrite rev_append, trimSpaceBackward_leading; [done|].
  by rewrite allBytes_rev.
Qed.

Context `{Network}.

Lemma FilterDocuments_parse filter documents query response :
  requestCompletion filter documents query = inr response →
  FilterDocuments filter documents query = parseResponse response.
Proof. unfold FilterDocuments. by intros ->. Qed.

(** C5, as the code has it: when the request went through and the decoded
    response has a first completion whose trimmed content is "NONE" or
    empty, [FilterDocuments] returns the empty list of candidates and no
    error exactly when the response carries no error object; with an error
    object the outcome is the API error with that object's message, since
    the error object is looked at before any completion is read.  Without
    an error object the empty result is returned for "NONE" between any two
    runs of ASCII white space and for a content of ASCII white space
    only. *)
Theorem FilterDocuments_NONE_is_empty
    (filter : DocumentFilter) (documents : list GoogleDocument)
    (query : string) (response : TogetherResponse)
    (choice : TogetherChoice) (others : list TogetherChoice) :
  requestCompletion filter documents query = inr response →
  Choices response = choice :: others →
  (Error response = None →
   TrimSpace (Message_Content choice) = "NONE"
   ∨ TrimSpace (Message_Content choice) = "" →
   FilterDocuments filter documents query = inr [])
  ∧ (Error response = None →
     ∀ before after,
       allBytes asciiSpace before = true → allBytes asciiSpace after = true →
       Message_Content choice = before +:+ "NONE" +:+ after →
       FilterDocuments filter documents query = inr [])
  ∧ (Error response = None →
     allBytes asciiSpace (Message_Content choice) = true →
     FilterDocuments filter documents query = inr [])
  ∧ (∀ message,
       Error response = Some message →
       FilterDocuments filter documents query = inl (APIError message))
  ∧ (TrimSpace (Message_Content choice) = "NONE"
     ∨ TrimSpace (Message_Content choice) = "" →
     FilterDocuments filter documents query = inr [] ↔ Error response = None).
Proof.
  intros Hresponse Hchoices.
  assert (Error response = None →
          TrimSpace (Message_Content choice) = "NONE"
          ∨ TrimSpace (Message_Content choice) = "" →
          FilterDocuments filter documents query = inr []) as Htrimmed.
  { intros Herror Hcontent. rewrite (FilterDocuments_parse _ _ _ _ Hresponse).
    unfold parseResponse. rewrite Herror, Hchoices.
    destruct Hcontent as [-> | ->]; reflexivity. }
  assert (∀ message,
            Error response = Some message →
            FilterDocuments filter documents query = inl (APIError message))
    as Hobject.
  { intros message Herror. rewrite (FilterDocuments_parse _ _ _ _ Hresponse).
    unfold parseResponse. by rewrite Herror. }
  split_and!; [done | | |done|].
  - intros Herror before after Hbefore Hafter Hcontent.
    apply Htrimmed; [done|]. left.
    rewrite Hcontent. by apply TrimSpace_NONE.
  - intros Herror Hspaces. apply Htrimmed; [done|]. right.
    by apply TrimSpace_spaces.
  - intros Hcontent. split; [|by intros Herror; apply Htrimmed].
    destruct (Error response) as [message|] eqn:Herror; [|done].
    by rewrite (Hobject message eq_refl).
Qed.

(** C6, as the code has it: a decoded response with no completions and no
    error object makes [FilterDocuments] fail with the error "no response
    from AI model", which no other error of [FilterDocuments] spells; when
    the response carries an error object, the failure is the API error with
    that object's message instead.  Either way no candidate list is
    returned. *)
Theorem FilterDocuments_no_completions
    (filter : DocumentFilter) (documents : list GoogleDocument)
    (query : string) (response : TogetherResponse) :
  requestCompletion filter documents query = inr response →
  Choices response = [] →
  (Error response = None →
   FilterDocuments filter documents query = inl NoResponse)
  ∧ (∀ message, Error response = Some message →
       FilterDocuments filter documents query = inl (APIError message))
  ∧ (∀ names, FilterDocuments filter documents query ≠ inr names)
  ∧ errorMessage NoResponse = "no response from AI model"
  ∧ (∀ e, errorMessage e = errorMessage NoResponse → e = NoResponse).
Proof.
  intros Hresponse Hchoices.
  rewrite (FilterDocuments_parse _ _ _ _ Hresponse).
  unfold parseResponse. rewrite Hchoices. split_and!.
  - by intros ->.
  - by intros message ->.
  - intros names. by destruct (Error response).
  - reflexivity.
  - apply errorMessage_NoResponse.
Qed.
End Outcome.

(** Counterexample to C6 as stated: a decoded response with no completions that carries
    an error object gives the API error, not the "no response" error. *)
Lemma FilterDocuments_error_object_first :
  Choices errorBody = []
  ∧ @FilterDocuments noTables (fixedResponse errorBody) someFilter
      [alpha; beta] "notes"
    = inl (APIError "Invalid API key")
  ∧ errorMessage (APIError "Invalid API key") = "API error: Invalid API key"
  ∧ APIError "Invalid API key" ≠ NoResponse.
Proof. repeat split. discriminate. Qed.

(** Counterexample to C5 as stated: a decoded response whose first
    completion is "NONE" but which also carries an error object gives the
    API error, not the empty result. *)
Lemma FilterDocuments_NONE_with_error_object :
  (∃ choice others,
     Choices errorBodyWithNONE = choice :: others
     ∧ @TrimSpace noTables (Message_Content choice) = "NONE")
  ∧ @FilterDocuments noTables (fixedResponse errorBodyWithNONE) someFilter
      [alpha; beta] "notes"
    = inl (APIError "Invalid API key")
  ∧ @FilterDocuments noTables (fixedResponse errorBodyWithNONE) someFilter
      [alpha; beta] "notes"
    ≠ inr [].
Proof.
  split_and!.
  - by eexists _, _.
  - reflexivity.
  - discriminate.
Qed.

(** Witness for C3, at the line "7. ab. Report": both prefixes go. *)
Lemma stripNumbering_both_tests_in_sequence_witness :
  (∃ prefix, len prefix = 3
     ∧ "7. ab. Report" = prefix +:+ stripOneDigitPrefix "7. ab. Report")
  ∧ stripNumbering "7. ab. Report" = "Report".
Proof.
  destruct (@stripNumbering_both_tests_in_sequence noTables "7. ab. Report")
    as (Hone & _ & _ & _ & _ & _ & Hboth & _).
  split.
  - apply Hone; [vm_compute; lia | reflexivity | reflexivity].
  - apply (Hboth "7"%char "a"%char "b"%char "Report"). discriminate.
Defined.

(** Witness for C4, at the lines "- Notes" and "Notes". *)
Lemma stripBullets_dash_then_star_witness :
  stripBullets ("- " +:+ "Notes") = "Notes" ∧ stripBullets "Notes" = "Notes".
Proof.
  split.
  - destruct (@stripBullets_dash_then_star noTables "- Notes")
      as (_ & _ & _ & Hdash & _).
    apply Hdash. reflexivity.
  - destruct (@stripBullets_dash_then_star noTables "Notes")
      as (_ & _ & _ & _ & _ & Hnone & _).
    apply Hnone; reflexivity.
Defined.

(** Witness for C5, at the answer "  NONE" followed by a newline. *)
Lemma FilterDocuments_NONE_is_empty_witness :
  @FilterDocuments noTables (fixedResponse (answer ("  NONE" +:+ newline)))
    someFilter [alpha; beta] "notes"
  = inr [].
Proof.
  destruct (@FilterDocuments_NONE_is_empty noTables
              (fixedResponse (answer ("  NONE" +:+ newline)))
              someFilter [alpha; beta] "notes"
              (answer ("  NONE" +:+ newline))
              {| Message_Content := "  NONE" +:+ newline |} []
              eq_refl eq_refl)
    as (_ & Hspaced & _).
  apply (Hspaced eq_refl "  " newline); reflexivity.
Defined.

(** Witness for C6, at the decoded body with neither completions nor error object. *)
Lemma FilterDocuments_no_completions_witness :
  @FilterDocuments noTables
    (fixedResponse {| Choices := []; Error := None |})
    someFilter [alpha; beta] "notes"
  = inl NoResponse.
Proof.
  destruct (@FilterDocuments_no_completions noTables
              (fixedResponse {| Choices := []; Error := None |})
              someFilter [alpha; beta] "notes"
              {| Choices := []; Error := None |} eq_refl eq_refl)
    as (Hnone & _).
  apply Hnone. reflexivity.
Defined.

(** Witness for C7, at the documents Alpha (no description) and Beta ("second"). *)
Lemma documentList_lines_witness :
  Split (documentList [doc "Alpha" ""; doc "Beta" "second"]) newline
  = imap documentLine [doc "Alpha" ""; doc "Beta" "second"] ++ [""].
Proof.
  destruct (documentList_lines [doc "Alpha" ""; doc "Beta" "second"])
    as (_ & _ & _ & Hsplit & _).
  apply Hsplit. repeat constructor.
Defined.

(** * Further properties of the program *)

(** ** More on [FindMatchingDocuments] *)

Lemma Contains_refl (s : string) : Contains s s = true.
Proof. apply Contains_spec. exists "", "". by rewrite append_empty_r. Qed.

Section MoreMatching.
Context `{UnicodeTables}.

Lemma nameMatches_own_name (document : GoogleDocument) :
  nameMatches document (Name document) = true.
Proof. unfold nameMatches. rewrite Contains_refl. apply orb_true_r. Qed.

Lemma elem_of_FindMatchingDocuments documents matchingNames document :
  document ∈ FindMatchingDocuments documents matchingNames ↔
  document ∈ documents
  ∧ ∃ name, name ∈ matchingNames ∧ nameMatches document name = true.
Proof.
  rewrite FindMatchingDocuments_filter, list_elem_of_filter.
  unfold matchedBy. rewrite Exists_exists. tauto.
Qed.

(** X1: a document whose exact display name is among the candidates is
    always returned, whatever the Unicode tables say about case. *)
Theorem FindMatchingDocuments_exact_name
    (documents : list GoogleDocument) (matchingNames : list string)
    (document : GoogleDocument) :
  document ∈ documents →
  Name document ∈ matchingNames →
  document ∈ FindMatchingDocuments documents matchingNames.
Proof.
  intros Hdocument Hname. apply elem_of_FindMatchingDocuments.
  split; [done|]. exists (Name document).
  split; [done | apply nameMatches_own_name].
Qed.

(** X2: with no candidate nothing is returned, and with no document
    nothing is returned. *)
Theorem FindMatchingDocuments_nothing_to_match
    (documents : list GoogleDocument) (matchingNames : list string) :
  FindMatchingDocuments documents [] = []
  ∧ FindMatchingDocuments [] matchingNames = [].
Proof.
  split; [|done]. rewrite FindMatchingDocuments_filter.
  induction documents as [|document rest IH]; [done|].
  rewrite filter_cons_False; [done|].
  unfold matchedBy. intros Hm. by apply Exists_nil in Hm.
Qed.

(** X3: matching a list of documents in two parts and joining the results
    is matching the whole list, and matching the result again with the same
    candidates changes nothing. *)
Theorem FindMatchingDocuments_parts
    (first second : list GoogleDocument) (matchingNames : list string) :
  FindMatchingDocuments (first ++ second) matchingNames
  = FindMatchingDocuments first matchingNames
    ++ FindMatchingDocuments second matchingNames
  ∧ FindMatchingDocuments (FindMatchingDocuments first matchingNames)
      matchingNames
    = FindMatchingDocuments first matchingNames.
Proof.
  rewrite !FindMatchingDocuments_filter. split; [apply filter_app|].
  rewrite list_filter_filter. apply list_filter_iff. tauto.
Qed.

(** X4: more candidates never lose a document: the result for a list of
    candidates is a subsequence of the result for any list that holds them
    all, and a document is returned for two lists of candidates put together
    exactly when it is returned for one of them. *)
Theorem FindMatchingDocuments_more_candidates
    (documents : list GoogleDocument) (names moreNames : list string) :
  ((∀ name, name ∈ names → name ∈ moreNames) →
   FindMatchingDocuments documents names
   `sublist_of` FindMatchingDocuments documents moreNames)
  ∧ (∀ document,
       document ∈ FindMatchingDocuments documents (names ++ moreNames) ↔
       document ∈ FindMatchingDocuments documents names
       ∨ document ∈ FindMatchingDocuments documents moreNames).
Proof.
  split.
  - intros Hmore. rewrite !FindMatchingDocuments_filter.
    induction documents as [|document rest IH]; [done|].
    destruct (decide (matchedBy names document)) as [Hm|Hm].
    + rewrite !filter_cons_True; [by constructor| |done].
      unfold matchedBy in *. rewrite Exists_exists in *.
      destruct Hm as (name & Hin & Hmatch). exists name. auto.
    + rewrite (filter_cons_False (matchedBy names)) by done.
      destruct (decide (matchedBy moreNames document)).
      * rewrite filter_cons_True by done. by constructor.
      * by rewrite filter_cons_False.
  - intros document. rewrite !elem_of_FindMatchingDocuments. split.
    + intros (Hdocument & name & Hin & Hmatch).
      apply elem_of_app in Hin as [Hin|Hin]; [left|right];
        (split; [done|]; by exists name).
    + intros [(Hdocument & name & Hin & Hmatch)
             |(Hdocument & name & Hin & Hmatch)];
        (split; [done|]); exists name; (split; [|done]); apply elem_of_app;
        [by left | by right].
Qed.
End MoreMatching.

(** Witness for X1, at the documents Alpha, Beta and the candidate "Beta". *)
Lemma FindMatchingDocuments_exact_name_witness :
  beta ∈ @FindMatchingDocuments noTables [alpha; beta] ["Beta"].
Proof.
  apply (@FindMatchingDocuments_exact_name noTables [alpha; beta] ["Beta"] beta).
  - apply list_elem_of_In. simpl. tauto.
  - apply list_elem_of_In. simpl. tauto.
Defined.

(** Witness for X4, at the candidates "alp" and "alp", "amm". *)
Lemma FindMatchingDocuments_more_candidates_witness :
  @FindMatchingDocuments noTables [alpha; beta; gamma] ["alp"]
  `sublist_of`
  @FindMatchingDocuments noTables [alpha; beta; gamma] ["alp"; "amm"].
Proof.
  destruct (@FindMatchingDocuments_more_candidates noTables
              [alpha; beta; gamma] ["alp"] ["alp"; "amm"]) as [Hmore _].
  apply Hmore. intros name Hname.
  apply list_elem_of_In in Hname. apply list_elem_of_In.
  simpl in *. tauto.
Defined.

(** ** More on [FilterDocuments] *)

(** X5: the message of an error of [FilterDocuments] tells which error it
    is, and with which cause: no two errors share a message. *)
Theorem errorMessage_injective (e1 e2 : FilterError) :
  errorMessage e1 = errorMessage e2 → e1 = e2.
Proof.
  destruct e1, e2; intros Hmessage; vm_compute in Hmessage; congruence.
Qed.

Section MoreFilter.
Context `{UnicodeTables}.

Lemma keepLine_kept matchingNames line :
  keepLine matchingNames line
  = matchingNames ++ filter keptCandidate [cleanLine line].
Proof.
  unfold keepLine.
  destruct (decide (keptCandidate (cleanLine line))) as [Hkept|Hkept].
  - rewrite filter_cons_True by done. destruct Hkept as [Hempty Hnone].
    by rewrite !bool_decide_false.
  - rewrite filter_cons_False, app_nil_r by done.
    unfold keptCandidate in Hkept.
    destruct (decide (cleanLine line = "")) as [->|Hempty]; [done|].
    destruct (decide (cleanLine line = "NONE")) as [->|Hnone]; [done|].
    by destruct Hkept.
Qed.

Lemma fold_keepLine lines matchingNames :
  fold_left keepLine lines matchingNames
  = matchingNames ++ filter keptCandidate (cleanLine <$> lines).
Proof.
  revert matchingNames.
  induction lines as [|line lines IH]; intros matchingNames.
  - simpl. by rewrite app_nil_r.
  - cbn [fold_left fmap list_fmap]. rewrite IH, keepLine_kept.
    rewrite <- app_assoc. f_equal.
    change (cleanLine line :: (cleanLine <$> lines))
      with ([cleanLine line] ++ (cleanLine <$> lines)).
    by rewrite filter_app.
Qed.

(** The candidates read from a response with no error object: the early
    return on "NONE" and on the empty content agrees with the loop. *)
Lemma parseResponse_candidates response choice others :
  Error response = None →
  Choices response = choice :: others →
  parseResponse response
  = inr (filter keptCandidate
           (cleanLine <$> Split (TrimSpace (Message_Content choice)) newline)).
Proof.
  intros Herror Hchoices. unfold parseResponse. rewrite Herror, Hchoices.
  destruct (decide (TrimSpace (Message_Content choice) = "NONE")) as [->|Hnone];
    [vm_compute; reflexivity|].
  destruct (decide (TrimSpace (Message_Content choice) = "")) as [->|Hempty];
    [vm_compute; reflexivity|].
  rewrite !bool_decide_false by done. cbn [orb]. by rewrite fold_keepLine.
Qed.

Context `{Network}.

(** X6: [FilterDocuments] returns candidates exactly when the exchange
    succeeded and the decoded response has no error object and at least one
    completion; the candidates are then, in line order and with repetitions,
    the cleaned lines of the trimmed content of the first completion that are
    neither empty nor "NONE".  It fails exactly with the error of the
    exchange, or with the API error of a response that carries an error
    object, or with the no-response error of one that has neither error
    object nor completion. *)
Theorem FilterDocuments_outcome
    (filter : DocumentFilter) (documents : list GoogleDocument)
    (query : string) :
  (∀ names,
     FilterDocuments filter documents query = inr names ↔
     ∃ response choice others,
       requestCompletion filter documents query = inr response
       ∧ Error response = None
       ∧ Choices response = choice :: others
       ∧ names
         = base.filter keptCandidate
             (cleanLine
                <$> Split (TrimSpace (Message_Content choice)) newline))
  ∧ (∀ e,
       FilterDocuments filter documents query = inl e ↔
       requestCompletion filter documents query = inl e
       ∨ ∃ response,
           requestCompletion filter documents query = inr response
           ∧ ((∃ message, Error response = Some message ∧ e = APIError message)
              ∨ (Error response = None ∧ Choices response = []
                 ∧ e = NoResponse))).
Proof.
  unfold FilterDocuments.
  destruct (requestCompletion filter documents query) as [e0|response].
  { split.
    - intros names. split; [intros [=]|]. by intros (? & ? & ? & [=] & _).
    - intros e. split; [intros [= ->]; by left|].
      intros [[= ->]|(? & [=] & _)]; done. }
  destruct (Error response) as [message|] eqn:Herror.
  { assert (parseResponse response = inl (APIError message)) as ->
      by (unfold parseResponse; by rewrite Herror).
    split.
    - intros names. split; [intros [=]|].
      intros (r & ? & ? & Hr & He & _). congruence.
    - intros e. split.
      + intros He. right. exists response. split; [done|]. left.
        exists message. split; [done | congruence].
      + intros [?|(r & Hr & [(m & Hm & ->)|(Hm & _)])]; [done| |];
          injection Hr as <-; congruence. }
  destruct (Choices response) as [|choice others] eqn:Hchoices.
  { assert (parseResponse response = inl NoResponse) as ->
      by (unfold parseResponse; by rewrite Herror, Hchoices).
    split.
    - intros names. split; [intros [=]|].
      intros (r & ? & ? & Hr & _ & Hc & _). congruence.
    - intros e. split.
      + intros He. right. exists response. split; [done|]. right.
        split_and!; congruence.
      + intros [?|(r & Hr & [(m & Hm & ->)|(_ & _ & ->)])]; [done| |];
          injection Hr as <-; congruence. }
  rewrite (parseResponse_candidates response choice others) by done.
  split.
  - intros names. split.
    + intros Hnames. exists response, choice, others.
      split_and!; congruence.
    + intros (r & c & o & Hr & _ & Hc & ->). injection Hr as <-.
      rewrite Hchoices in Hc. injection Hc as <- <-. done.
  - intros e. split; [done|].
    intros [?|(r & Hr & [(m & Hm & ->)|(_ & Hc & ->)])]; [done| |];
      injection Hr as <-; congruence.
Qed.

(** X7: no candidate [FilterDocuments] returns is empty or "NONE"; in
    particular [FindMatchingDocuments] never gets the empty candidate, which
    would select every document, from it. *)
Theorem FilterDocuments_candidates_kept
    (filter : DocumentFilter) (documents : list GoogleDocument)
    (query : string) (names : list string) :
  FilterDocuments filter documents query = inr names →
  ∀ name, name ∈ names → name ≠ "" ∧ name ≠ "NONE".
Proof.
  unfold FilterDocuments.
  destruct (requestCompletion filter documents query) as [e|response]; [done|].
  unfold parseResponse.
  destruct (Error response); [done|].
  destruct (Choices response) as [|choice others]; [done|].
  destruct (_ || _).
  - intros [= <-] name Hname. by apply elem_of_nil in Hname.
  - rewrite fold_keepLine. intros [= <-] name Hname.
    cbn [app] in Hname. by apply list_elem_of_filter in Hname as [Hkept _].
Qed.
End MoreFilter.

(** Witness for X5, at two parse errors. *)
Lemma errorMessage_injective_witness :
  ParseFailed "unexpected end of JSON input"
  = ParseFailed "unexpected end of JSON input".
Proof.
  apply (errorMessage_injective (ParseFailed "unexpected end of JSON input")
           (ParseFailed "unexpected end of JSON input")).
  reflexivity.
Defined.

(** Witness for X7, at the answer "1. Alpha", "", "NONE", "- Beta" on four
    lines. *)
Lemma FilterDocuments_candidates_kept_witness :
  "Beta" ≠ "" ∧ "Beta" ≠ "NONE".
Proof.
  apply (@FilterDocuments_candidates_kept noTables
           (fixedResponse
              (answer ("1. Alpha" +:+ newline +:+ newline +:+ "NONE"
                       +:+ newline +:+ "- Beta")))
           someFilter [alpha; beta] "notes" ["Alpha"; "Beta"]).
  - reflexivity.
  - apply list_elem_of_In. simpl. tauto.
Defined.

(** ** Cleaning an ASCII line *)

Lemma substringOf_refl (s : string) : substringOf s s.
Proof. exists "", "". by rewrite append_empty_r. Qed.

Lemma substringOf_trans (a b c : string) :
  substringOf a b → substringOf b c → substringOf a c.
Proof.
  intros (before1 & after1 & ->) (before2 & after2 & ->).
  exists (before2 +:+ before1), (after1 +:+ after2).
  by rewrite !append_assoc.
Qed.

Lemma substringOf_suffix (before s : string) : substringOf s (before +:+ s).
Proof. exists before, "". by rewrite append_empty_r. Qed.

Lemma substringOf_prefix (s after : string) : substringOf s (s +:+ after).
Proof. by exists "", after. Qed.

Lemma isASCII_substring (inner s : string) :
  substringOf inner s → isASCII s = true → isASCII inner = true.
Proof.
  intros (before & after & ->). unfold isASCII.
  rewrite !allBytes_append, !andb_true_iff. tauto.
Qed.

Lemma rev_involutive (s : string) : String.rev (String.rev s) = s.
Proof.
  induction s as [|c s IH]; [done|].
  change (String c s) with (String c "" +:+ s) at 1.
  by rewrite rev_append, rev_append, IH.
Qed.

Lemma sliceFrom_suffix (n : nat) (s : string) : substringOf (sliceFrom n s) s.
Proof.
  revert s. induction n as [|n IH]; intros s; [apply substringOf_refl|].
  destruct s as [|c s]; [apply substringOf_refl|].
  cbn [sliceFrom]. eapply substringOf_trans; [apply IH|].
  apply (substringOf_suffix (String c "")).
Qed.

Lemma TrimPrefix_suffix (s prefix : string) : substringOf (TrimPrefix s prefix) s.
Proof.
  unfold TrimPrefix. destruct (HasPrefix s prefix);
    [apply sliceFrom_suffix | apply substringOf_refl].
Qed.

Lemma stripBullets_suffix (s : string) : substringOf (stripBullets s) s.
Proof.
  unfold stripBullets.
  eapply substringOf_trans; apply TrimPrefix_suffix.
Qed.

Lemma stripOneDigitPrefix_suffix (s : string) :
  substringOf (stripOneDigitPrefix s) s.
Proof.
  unfold stripOneDigitPrefix.
  destruct ((3 <? len s) && bool_decide (byteAt s 1 = Some "."%char)
            && bool_decide (byteAt s 2 = Some " "%char));
    [apply sliceFrom_suffix | apply substringOf_refl].
Qed.

Lemma stripTwoDigitPrefix_suffix (s : string) :
  substringOf (stripTwoDigitPrefix s) s.
Proof.
  unfold stripTwoDigitPrefix.
  destruct ((4 <? len s) && bool_decide (byteAt s 2 = Some "."%char)
            && bool_decide (byteAt s 3 = Some " "%char));
    [apply sliceFrom_suffix | apply substringOf_refl].
Qed.

Lemma stripNumbering_suffix (s : string) : substringOf (stripNumbering s) s.
Proof.
  unfold stripNumbering. eapply substringOf_trans;
    [apply stripTwoDigitPrefix_suffix | apply stripOneDigitPrefix_suffix].
Qed.

Section CleanASCII.
Context `{UnicodeTables}.

Lemma trimSpaceBackward_ascii (r : string) :
  isASCII r = true →
  ∃ dropped kept, r = dropped +:+ kept ∧ trimSpaceBackward r = String.rev kept.
Proof.
  unfold isASCII. induction r as [|c r IH]; intros Hr.
  - by exists "", "".
  - cbn [allBytes] in Hr. apply andb_true_iff in Hr as [Hc Hr].
    apply negb_true_iff in Hc. cbn [trimSpaceBackward]. rewrite Hc.
    destruct (asciiSpace c).
    + destruct (IH Hr) as (dropped & kept & -> & Htrim).
      by exists (String c dropped), kept.
    + by exists "", (String c r).
Qed.

Lemma TrimSpace_ascii_substring (s : string) :
  isASCII s = true → substringOf (TrimSpace s) s.
Proof.
  unfold isASCII. induction s as [|c s IH]; intros Hs;
    [apply substringOf_refl|].
  pose proof Hs as Hall.
  cbn [allBytes] in Hs. apply andb_true_iff in Hs as [Hc Hs].
  apply negb_true_iff in Hc. cbn [TrimSpace]. rewrite Hc.
  destruct (asciiSpace c).
  - eapply substringOf_trans; [by apply IH|].
    apply (substringOf_suffix (String c "")).
  - destruct (trimSpaceBackward_ascii (String.rev (String c s)))
      as (dropped & kept & Hrev & ->).
    { unfold isASCII. by rewrite allBytes_rev. }
    rewrite <- (rev_involutive (String c s)), Hrev, rev_append.
    apply substringOf_prefix.
Qed.

Lemma cleanLine_ascii_substring_parts (line : string) :
  isASCII line = true →
  substringOf (cleanLine line) line ∧ isASCII (cleanLine line) = true.
Proof.
  intros Hline. unfold cleanLine.
  pose proof (TrimSpace_ascii_substring line Hline) as Htrimmed.
  pose proof (isASCII_substring _ _ Htrimmed Hline) as Hascii1.
  pose proof (stripBullets_suffix (TrimSpace line)) as Hbullets.
  pose proof (isASCII_substring _ _ Hbullets Hascii1) as Hascii2.
  pose proof (stripNumbering_suffix (stripBullets (TrimSpace line)))
    as Hnumbering.
  pose proof (isASCII_substring _ _ Hnumbering Hascii2) as Hascii3.
  pose proof (TrimSpace_ascii_substring _ Hascii3) as Hlast.
  split.
  - eapply substringOf_trans; [exact Hlast|].
    eapply substringOf_trans; [exact Hnumbering|].
    eapply substringOf_trans; [exact Hbullets | exact Htrimmed].
  - by eapply isASCII_substring.
Qed.

(** X8: on an ASCII line, what the cleaning keeps is a run of consecutive
    bytes of the line: nothing is rewritten or inserted. *)
Theorem cleanLine_ascii_substring (line : string) :
  isASCII line = true →
  (∃ before after, line = before +:+ cleanLine line +:+ after)
  ∧ isASCII (cleanLine line) = true.
Proof. apply cleanLine_ascii_substring_parts. Qed.

Lemma mapBytes_append (f : ascii → ascii) (a b : string) :
  mapBytes f (a +:+ b) = mapBytes f a +:+ mapBytes f b.
Proof.
  induction a as [|c a IH]; unfold_append; [done|].
  cbn [mapBytes]. unfold_append. by f_equal.
Qed.

(** X9: when the answer repeats the exact ASCII display name of a document
    on a line of its own, the candidate that the cleaning makes of that line
    finds the document, also when the cleaning has cut into the name. *)
Theorem FindMatchingDocuments_finds_echoed_name
    (documents : list GoogleDocument) (matchingNames : list string)
    (document : GoogleDocument) :
  document ∈ documents →
  isASCII (Name document) = true →
  cleanLine (Name document) ∈ matchingNames →
  document ∈ FindMatchingDocuments documents matchingNames.
Proof.
  intros Hdocument Hascii Hname. apply elem_of_FindMatchingDocuments.
  split; [done|]. exists (cleanLine (Name document)). split; [done|].
  destruct (cleanLine_ascii_substring_parts (Name document) Hascii)
    as [(before & after & Hparts) Hcleaned].
  apply nameMatches_ascii; [done | done |].
  exists (mapBytes lowerByte before), (mapBytes lowerByte after).
  rewrite Hparts at 1. by rewrite !mapBytes_append.
Qed.
End CleanASCII.

(** ** More on [SanitizeFilename] and the export path *)

Lemma sanitizeByte_valid (c : ascii) :
  bool_decide (sanitizeByte c ∈ invalidBytes) = false.
Proof.
  unfold sanitizeByte.
  destruct (bool_decide (c ∈ invalidBytes)) eqn:Hinvalid;
    [vm_compute; reflexivity | exact Hinvalid].
Qed.

Lemma hasInvalidByte_append (a b : string) :
  hasInvalidByte (a +:+ b) = hasInvalidByte a || hasInvalidByte b.
Proof.
  unfold hasInvalidByte. induction a as [|c a IH]; unfold_append; [done|].
  cbn [anyByte]. by rewrite IH, orb_assoc.
Qed.

Lemma hasSeparator_append (a b : string) :
  hasSeparator (a +:+ b) = hasSeparator a || hasSeparator b.
Proof.
  unfold hasSeparator. induction a as [|c a IH]; unfold_append; [done|].
  cbn [anyByte]. by rewrite IH, orb_assoc.
Qed.

Lemma hasSeparator_invalid (s : string) :
  hasInvalidByte s = false → hasSeparator s = false.
Proof.
  unfold hasInvalidByte, hasSeparator.
  induction s as [|c s IH]; [done|]. cbn [anyByte].
  rewrite !orb_false_iff. intros [Hc Hs]. split; [|by apply IH].
  apply bool_decide_eq_false in Hc.
  destruct (Ascii.eqb_spec c "/"%char) as [->|_];
    [destruct Hc; apply list_elem_of_In; cbn [In invalidBytes]; tauto|].
  destruct (Ascii.eqb_spec c "\"%char) as [->|_]; [|done].
  destruct Hc. apply list_elem_of_In. cbn [In invalidBytes]. tauto.
Qed.

Lemma SanitizeFilename_valid (name : string) :
  hasInvalidByte (SanitizeFilename name) = false.
Proof.
  rewrite SanitizeFilename_map. unfold hasInvalidByte.
  induction name as [|c name IH]; [done|].
  cbn [mapBytes anyByte]. by rewrite sanitizeByte_valid, IH.
Qed.

(** X10: a sanitized name holds none of the nine bytes, at any position;
    in particular it holds no path separator. *)
Theorem SanitizeFilename_holds_no_invalid_byte (name : string) :
  hasInvalidByte (SanitizeFilename name) = false
  ∧ hasSeparator (SanitizeFilename name) = false
  ∧ (∀ i c, byteAt (SanitizeFilename name) i = Some c → c ∉ invalidBytes).
Proof.
  split_and!.
  - apply SanitizeFilename_valid.
  - apply hasSeparator_invalid, SanitizeFilename_valid.
  - intros i c. rewrite SanitizeFilename_map, mapBytes_byteAt.
    destruct (byteAt name i) as [b|]; [|done]. intros [= <-].
    pose proof (sanitizeByte_valid b) as Hvalid.
    by apply bool_decide_eq_false in Hvalid.
Qed.

Lemma SanitizeFilename_fixed (name : string) :
  SanitizeFilename name = name ↔ hasInvalidByte name = false.
Proof.
  rewrite SanitizeFilename_map. unfold hasInvalidByte.
  induction name as [|c name IH]; [done|].
  cbn [mapBytes anyByte]. rewrite orb_false_iff, <- IH.
  unfold sanitizeByte. split.
  - intros [= Hc Hname]. split; [|done].
    case_bool_decide as Hinvalid; [|done]. subst c.
    apply list_elem_of_In in Hinvalid. cbn [In invalidBytes] in Hinvalid.
    intuition discriminate.
  - intros [-> ->]. done.
Qed.

(** X11: [SanitizeFilename] leaves a name as it is exactly when the name
    holds none of the nine bytes, and it works on each part of a name on its
    own: sanitizing a concatenation is concatenating the sanitized parts. *)
Theorem SanitizeFilename_unchanged_and_piecewise (name rest : string) :
  (SanitizeFilename name = name ↔ hasInvalidByte name = false)
  ∧ SanitizeFilename (name +:+ rest)
    = SanitizeFilename name +:+ SanitizeFilename rest.
Proof.
  split; [apply SanitizeFilename_fixed|].
  rewrite !SanitizeFilename_map. apply mapBytes_append.
Qed.

(** X12: two documents whose display names differ only in which of the nine
    bytes (or an underscore) stands at one place are exported to the same
    path: the later export overwrites the earlier one. *)
Theorem exportDocument_outputPath_collides
    (first second : GoogleDocument) (before after : string) (x y : ascii)
    (outputDirectory : string) (format : ExportFormat) :
  sanitizeByte x = "_"%char → sanitizeByte y = "_"%char →
  Name first = before +:+ String x after →
  Name second = before +:+ String y after →
  exportDocument_outputPath first outputDirectory format
  = exportDocument_outputPath second outputDirectory format.
Proof.
  intros Hx Hy Hfirst Hsecond.
  unfold exportDocument_outputPath, exportDocument_filename.
  rewrite Hfirst, Hsecond, !SanitizeFilename_map.
  assert (∀ z, mapBytes sanitizeByte (before +:+ String z after)
               = mapBytes sanitizeByte before
                 +:+ String (sanitizeByte z) (mapBytes sanitizeByte after))
    as Hmap.
  { intros z. by rewrite mapBytes_append. }
  by rewrite !Hmap, Hx, Hy.
Qed.

Lemma ExportFormats_lookup (key : string) (format : ExportFormat) :
  ExportFormats !! key = Some format →
  key ∈ formatKeys ∧ hasInvalidByte (Extension format) = false.
Proof.
  unfold ExportFormats. intros Hlookup.
  apply elem_of_list_to_map in Hlookup.
  - apply list_elem_of_In in Hlookup. cbn [In] in Hlookup.
    repeat (destruct Hlookup as [[= <- <-] | Hlookup];
            [split; [apply list_elem_of_In; cbn; tauto | reflexivity]|]).
    done.
  - apply NoDup_ListNoDup. cbn [fmap list_fmap fst].
    repeat constructor; cbn [In]; intuition discriminate.
Qed.

(** X13: for every format of the table, the export path of a document is
    the file name alone when the output directory is "." or empty, and the
    directory, a slash and the file name otherwise; the file name, display
    name and extension together, holds none of the nine bytes, so no path
    separator: the file lands in the output directory itself, whatever the
    document is called. *)
Theorem exportDocument_outputPath_in_directory
    (key : string) (format : ExportFormat) (document : GoogleDocument)
    (outputDirectory : string) :
  ExportFormats !! key = Some format →
  hasInvalidByte (exportDocument_filename document format) = false
  ∧ hasSeparator (exportDocument_filename document format) = false
  ∧ (outputDirectory = "." ∨ outputDirectory = "" →
     exportDocument_outputPath document outputDirectory format
     = exportDocument_filename document format)
  ∧ (outputDirectory ≠ "." → outputDirectory ≠ "" →
     exportDocument_outputPath document outputDirectory format
     = outputDirectory +:+ "/"
       +:+ exportDocument_filename document format).
Proof.
  intros Hformat. apply ExportFormats_lookup in Hformat as [_ Hextension].
  assert (hasInvalidByte (exportDocument_filename document format) = false)
    as Hname.
  { unfold exportDocument_filename.
    by rewrite hasInvalidByte_append, SanitizeFilename_valid, Hextension. }
  split_and!; [done | by apply hasSeparator_invalid | |].
  - unfold exportDocument_outputPath. intros [-> | ->]; reflexivity.
  - intros Hdot Hempty. unfold exportDocument_outputPath.
    by rewrite !bool_decide_false.
Qed.

Section MoreFormats.
Context `{UnicodeTables}.

(** X14: the format flag is looked up without regard to ASCII case: an
    ASCII value is accepted exactly when its lowered form is one of the nine
    keys, and two ASCII values that differ only in case give the same
    format. *)
Theorem lookupExportFormat_ignores_case (exportType other : string) :
  isASCII exportType = true →
  (is_Some (lookupExportFormat exportType) ↔
   mapBytes lowerByte exportType ∈ formatKeys)
  ∧ (isASCII other = true →
     mapBytes lowerByte other = mapBytes lowerByte exportType →
     lookupExportFormat other = lookupExportFormat exportType).
Proof.
  intros Hascii. unfold lookupExportFormat. split.
  - rewrite ToLower_ascii by done. split.
    + intros [format Hformat]. by apply ExportFormats_lookup in Hformat as [? _].
    + intros Hkey. apply list_elem_of_In in Hkey. cbn [formatKeys In] in Hkey.
      repeat (destruct Hkey as [<- | Hkey]; [by eexists|]). done.
  - intros Hother Hsame. rewrite !ToLower_ascii by done. by rewrite Hsame.
Qed.
End MoreFormats.

(** ** The selection of [main] *)

Lemma digit_is_plain (c : ascii) :
  isDigitByte c = true →
  Ascii.eqb c "-"%char = false ∧ Ascii.eqb c "+"%char = false
  ∧ nonASCII c = false ∧ asciiSpace c = false ∧ lowerByte c = c.
Proof.
  destruct c as [[] [] [] [] [] [] [] []]; vm_compute; try discriminate; tauto.
Qed.

Lemma formatInt_digits (d : Decimal.uint) :
  allBytes isDigitByte (NilEmpty.string_of_uint d) = true.
Proof. induction d; simpl; done. Qed.

Lemma atoiDigits_string_of_uint (d : Decimal.uint) (acc : nat) :
  atoiDigits (NilEmpty.string_of_uint d) (Z.of_nat acc)
  = Some (Z.of_nat (Nat.of_uint_acc d acc)).
Proof.
  revert acc.
  induction d as [|d IH|d IH|d IH|d IH|d IH|d IH|d IH|d IH|d IH|d IH];
    intros acc; [done|..];
    cbn [NilEmpty.string_of_uint atoiDigits Nat.of_uint_acc];
    match goal with
    | |- context [digitOf ?c] =>
        let v := eval vm_compute in (digitOf c) in change (digitOf c) with v
    end;
    cbv iota; rewrite <- IH; f_equal; rewrite Nat.tail_mul_spec; lia.
Qed.

Lemma formatInt_nonempty (n : nat) : formatInt n ≠ "".
Proof.
  unfold formatInt. intros Hempty.
  assert (Nat.to_uint n = Decimal.Nil) as Hnil
    by (destruct (Nat.to_uint n); simpl in Hempty; congruence).
  pose proof (Unsigned.of_to n) as Hn. rewrite Hnil in Hn. simpl in Hn.
  subst n. discriminate Hnil.
Qed.

(** [strconv.Atoi] reads back what [%d] prints. *)
Lemma Atoi_formatInt (n : nat) :
  (Z.of_nat n < 2 ^ 63)%Z → Atoi (formatInt n) = Some (Z.of_nat n).
Proof.
  intros Hrange. pose proof (formatInt_nonempty n) as Hnonempty.
  pose proof (formatInt_digits (Nat.to_uint n)) as Hdigits.
  pose proof (atoiDigits_string_of_uint (Nat.to_uint n) 0) as Hvalue.
  fold (formatInt n) in Hdigits, Hvalue.
  change (Nat.of_uint_acc (Nat.to_uint n) 0) with (Nat.of_uint (Nat.to_uint n))
    in Hvalue.
  rewrite Unsigned.of_to in Hvalue. change (Z.of_nat 0) with 0%Z in Hvalue.
  destruct (formatInt n) as [|c rest]; [done|].
  cbn [allBytes] in Hdigits. apply andb_true_iff in Hdigits as [Hc _].
  destruct (digit_is_plain c Hc) as (Hminus & Hplus & _).
  unfold Atoi. rewrite Hminus, Hplus. cbn [orb]. rewrite Hvalue.
  destruct (_ && _)%Z eqn:Hcheck; [done|].
  apply andb_false_iff in Hcheck as [Hcheck|Hcheck];
    [apply Z.leb_gt in Hcheck | apply Z.leb_gt in Hcheck]; lia.
Qed.

Lemma mapBytes_lowerByte_digits (s : string) :
  allBytes isDigitByte s = true → mapBytes lowerByte s = s.
Proof.
  induction s as [|c s IH]; [done|]. cbn [allBytes mapBytes].
  intros [Hc Hs]%andb_true_iff.
  destruct (digit_is_plain c Hc) as (_ & _ & _ & _ & ->). by rewrite IH.
Qed.

Lemma isASCII_digits (s : string) :
  allBytes isDigitByte s = true → isASCII s = true.
Proof.
  unfold isASCII. induction s as [|c s IH]; [done|]. cbn [allBytes].
  intros [Hc Hs]%andb_true_iff.
  destruct (digit_is_plain c Hc) as (_ & _ & -> & _). by rewrite IH.
Qed.

Section Selection.
Context `{FilePath} `{UnicodeTables}.

(** Digits followed by ASCII white space are trimmed to the digits. *)
Lemma TrimSpace_digits (digits spaces : string) :
  digits ≠ "" → allBytes isDigitByte digits = true →
  allBytes asciiSpace spaces = true →
  TrimSpace (digits +:+ spaces) = digits.
Proof.
  intros Hnonempty Hdigits Hspaces.
  destruct digits as [|c digits]; [done|].
  pose proof Hdigits as Hall.
  cbn [allBytes] in Hdigits. apply andb_true_iff in Hdigits as [Hc _].
  destruct (digit_is_plain c Hc) as (_ & _ & Hascii & Hspace & _).
  unfold_append. cbn [TrimSpace]. rewrite Hascii, Hspace.
  change (String c (digits +:+ spaces)) with (String c digits +:+ spaces).
  rewrite rev_append, trimSpaceBackward_leading by (by rewrite allBytes_rev).
  pose proof (allBytes_rev isDigitByte (String c digits)) as Hrev.
  rewrite Hall in Hrev.
  destruct (String.rev (String c digits)) as [|last r] eqn:Hreversed.
  - pose proof (rev_involutive (String c digits)) as Hinv.
    rewrite Hreversed in Hinv. discriminate Hinv.
  - cbn [allBytes] in Hrev. apply andb_true_iff in Hrev as [Hlast _].
    destruct (digit_is_plain last Hlast) as (_ & _ & Hascii' & Hspace' & _).
    cbn [trimSpaceBackward]. rewrite Hascii', Hspace', <- Hreversed.
    apply rev_involutive.
Qed.

(** The line typed for the number [n]: the digits and a newline. *)
Lemma input_of_number (n : nat) :
  TrimSpace (ToLower (formatInt n +:+ newline)) = formatInt n.
Proof.
  pose proof (formatInt_digits (Nat.to_uint n)) as Hdigits.
  fold (formatInt n) in Hdigits.
  rewrite ToLower_ascii.
  - rewrite mapBytes_append, mapBytes_lowerByte_digits by done.
    apply TrimSpace_digits; [apply formatInt_nonempty | done | done].
  - unfold isASCII. rewrite allBytes_append.
    fold (isASCII (formatInt n)). by rewrite isASCII_digits.
Qed.

Lemma printMatches_lookup matchingDocuments index document :
  matchingDocuments !! index = Some document →
  printMatches matchingDocuments !! index
  = Some (Print ("  " +:+ formatInt (index + 1) +:+ ". " +:+ Name document
                 +:+ newline)).
Proof. intros Hlookup. unfold printMatches. by rewrite list_lookup_imap, Hlookup. Qed.

(** X15: when several documents match, typing the number shown in front of
    a document in the list of matches exports that document, and only it,
    and the program exits with code 0. *)
Theorem exportMatches_selects_listed_number
    (matchingDocuments : list GoogleDocument) (index : nat)
    (document : GoogleDocument) (outputDirectory : string)
    (format : ExportFormat) (outcomes : nat → ExportOutcomes) :
  1 < length matchingDocuments →
  (Z.of_nat (length matchingDocuments) < 2 ^ 63)%Z →
  matchingDocuments !! index = Some document →
  printMatches matchingDocuments !! index
  = Some (Print ("  " +:+ formatInt (index + 1) +:+ ". " +:+ Name document
                 +:+ newline))
  ∧ exportMatches matchingDocuments (formatInt (index + 1) +:+ newline)
      outputDirectory format outcomes
    = ((Print (newline +:+ "Found " +:+ formatInt (length matchingDocuments)
               +:+ " matching document(s):" +:+ newline)
        :: printMatches matchingDocuments)
       ++ printOptions ++ [ReadLine]
       ++ exportDocument document outputDirectory format (outcomes 0),
       0%Z).
Proof.
  intros Hseveral Hrange Hlookup. split; [by apply printMatches_lookup|].
  pose proof (lookup_lt_Some _ _ _ Hlookup) as Hindex.
  unfold exportMatches. destruct matchingDocuments as [|first others]; [done|].
  rewrite bool_decide_true by done. rewrite input_of_number.
  pose proof (formatInt_digits (Nat.to_uint (index + 1))) as Hdigits.
  fold (formatInt (index + 1)) in Hdigits.
  rewrite bool_decide_false by (intros Hq; by rewrite Hq in Hdigits).
  rewrite bool_decide_false by (intros Hall; by rewrite Hall in Hdigits).
  rewrite Atoi_formatInt by lia.
  rewrite !bool_decide_false by lia. cbn [orb].
  replace (Z.to_nat (Z.of_nat (index + 1) - 1)) with index by lia.
  rewrite Hlookup. by rewrite <- !app_assoc.
Qed.

Lemma downloadedIDs_print text effects :
  downloadedIDs (Print text :: effects) = downloadedIDs effects.
Proof. reflexivity. Qed.

Lemma downloadedIDs_app effects1 effects2 :
  downloadedIDs (effects1 ++ effects2)
  = downloadedIDs effects1 ++ downloadedIDs effects2.
Proof. apply omap_app. Qed.

Lemma exportDocument_effects document outputDirectory format outcomes :
  downloadedIDs (exportDocument document outputDirectory format outcomes)
  = [ID document]
  ∧ existsb isReadLine
      (exportDocument document outputDirectory format outcomes) = false.
Proof.
  unfold exportDocument, ExportDocument.
  destruct (download outcomes); [split; reflexivity|].
  destruct (negb (bool_decide
                    (filepath_Dir
                       (exportDocument_outputPath document outputDirectory
                          format) = "."))
            && negb (bool_decide
                       (filepath_Dir
                          (exportDocument_outputPath document outputDirectory
                             format) = "")));
    [destruct (mkdirAll outcomes); [split; reflexivity|]|];
    (destruct (create outcomes); [split; reflexivity|]);
    destruct (copy outcomes); split; reflexivity.
Qed.

Lemma exportAll_effects matchingDocuments outputDirectory format outcomes i :
  downloadedIDs (exportAll matchingDocuments outputDirectory format outcomes i)
  = ID <$> matchingDocuments
  ∧ existsb isReadLine
      (exportAll matchingDocuments outputDirectory format outcomes i) = false.
Proof.
  revert i. induction matchingDocuments as [|document rest IH]; intros i;
    [split; reflexivity|].
  cbn [exportAll]. rewrite downloadedIDs_app, existsb_app.
  destruct (exportDocument_effects document outputDirectory format (outcomes i))
    as [Hids Hread].
  destruct (IH (S i)) as [Hrest Hrestread].
  by rewrite Hids, Hread, Hrest, Hrestread.
Qed.

Lemma prints_effects {A : Type} (text : nat → A → string) (l : list A) :
  downloadedIDs (imap (λ i x, Print (text i x)) l) = []
  ∧ existsb isReadLine (imap (λ i x, Print (text i x)) l) = false
  ∧ existsb reachesOutside (imap (λ i x, Print (text i x)) l) = false.
Proof.
  revert text. induction l as [|x l IH]; intros text; [done|].
  cbn [imap]. destruct (IH (λ i, text (S i))) as (Hids & Hread & Houtside).
  split_and!; cbn; done.
Qed.

Lemma asked_effects matchingDocuments :
  let asked :=
    (Print (newline +:+ "Found " +:+ formatInt (length matchingDocuments)
            +:+ " matching document(s):" +:+ newline)
     :: printMatches matchingDocuments) ++ printOptions ++ [ReadLine] in
  downloadedIDs asked = []
  ∧ existsb isReadLine asked = true
  ∧ existsb reachesOutside asked = false.
Proof.
  cbv zeta. unfold printMatches.
  destruct (prints_effects
              (λ index document,
                 "  " +:+ formatInt (index + 1) +:+ ". " +:+ Name document
                 +:+ newline) matchingDocuments) as (Hids & Hread & Houtside).
  rewrite <- app_comm_cons, downloadedIDs_print, !downloadedIDs_app, Hids.
  cbn [existsb isReadLine reachesOutside]. rewrite !existsb_app, Hread, Houtside.
  split_and!; reflexivity.
Qed.

(** X16: the exit code does not depend on how the exports went: it is 1
    exactly when several documents matched and the trimmed, lowered input was
    neither "q" nor "all" nor a number from 1 to the number of matches, and 0
    in every other case; the indexing of the matches never goes out of
    range. *)
Theorem exportMatches_exit_code
    (matchingDocuments : list GoogleDocument) (line outputDirectory : string)
    (format : ExportFormat) (outcomes others : nat → ExportOutcomes) :
  (exportMatches matchingDocuments line outputDirectory format outcomes).2
  = (exportMatches matchingDocuments line outputDirectory format others).2
  ∧ ((exportMatches matchingDocuments line outputDirectory format outcomes).2
     = 1%Z ↔
     1 < length matchingDocuments
     ∧ TrimSpace (ToLower line) ≠ "q"
     ∧ TrimSpace (ToLower line) ≠ "all"
     ∧ ∀ selection,
         Atoi (TrimSpace (ToLower line)) = Some selection →
         (selection < 1 ∨ Z.of_nat (length matchingDocuments) < selection)%Z)
  ∧ ((exportMatches matchingDocuments line outputDirectory format outcomes).2
     ≠ 1%Z →
     (exportMatches matchingDocuments line outputDirectory format outcomes).2
     = 0%Z).
Proof.
  unfold exportMatches.
  destruct matchingDocuments as [|first rest].
  { cbn [snd length]. split_and!; [done| |done]. split; [done|]. lia. }
  set (matchingDocuments := first :: rest).
  destruct (bool_decide (1 < length matchingDocuments)) eqn:Hseveral.
  2:{ apply bool_decide_eq_false in Hseveral. cbn [snd].
      split_and!; [done| |done]. split; [done|]. tauto. }
  apply bool_decide_eq_true in Hseveral.
  destruct (decide (TrimSpace (ToLower line) = "q")) as [Hq|Hq].
  { rewrite (bool_decide_true _ Hq). cbn [snd].
    split_and!; [done| |done]. split; [done|]. tauto. }
  rewrite (bool_decide_false _ Hq).
  destruct (decide (TrimSpace (ToLower line) = "all")) as [Hall|Hall].
  { rewrite (bool_decide_true _ Hall). cbn [snd].
    split_and!; [done| |done]. split; [done|]. tauto. }
  rewrite (bool_decide_false _ Hall).
  destruct (Atoi (TrimSpace (ToLower line))) as [selection|].
  2:{ cbn [snd]. split_and!; [done| |done]. split; [|done].
      intros _. split_and!; done. }
  destruct (decide (selection < 1)%Z) as [Hlow|Hlow].
  { rewrite (bool_decide_true _ Hlow). cbn [orb snd].
    split_and!; [done| |done]. split; [|done].
    intros _. split_and!; try done. intros ? [= <-]. by left. }
  rewrite (bool_decide_false _ Hlow).
  destruct (decide (Z.of_nat (length matchingDocuments) < selection)%Z)
    as [Hhigh|Hhigh].
  { rewrite (bool_decide_true _ Hhigh). cbn [orb snd].
    split_and!; [done| |done]. split; [|done].
    intros _. split_and!; try done. intros ? [= <-]. by right. }
  rewrite (bool_decide_false _ Hhigh). cbn [orb].
  destruct (matchingDocuments !! Z.to_nat (selection - 1)) as [document|]
    eqn:Hlookup.
  - cbn [snd]. split_and!; [done| |done]. split; [done|].
    intros (_ & _ & _ & Hinvalid). destruct (Hinvalid selection eq_refl); lia.
  - apply lookup_ge_None in Hlookup. lia.
Qed.

(** X17: on "all" every matching document is attempted once, in the order
    of the list, whatever happens to the exports before it, and the exit code
    is 0. *)
Theorem exportMatches_all_attempted
    (matchingDocuments : list GoogleDocument) (line outputDirectory : string)
    (format : ExportFormat) (outcomes : nat → ExportOutcomes) :
  1 < length matchingDocuments →
  TrimSpace (ToLower line) = "all" →
  downloadedIDs
    (exportMatches matchingDocuments line outputDirectory format outcomes).1
  = ID <$> matchingDocuments
  ∧ (exportMatches matchingDocuments line outputDirectory format outcomes).2
    = 0%Z.
Proof.
  intros Hseveral Hall. unfold exportMatches.
  destruct matchingDocuments as [|first rest]; [cbn in Hseveral; lia|].
  set (matchingDocuments := first :: rest) in *.
  rewrite (bool_decide_true _ Hseveral), Hall. cbn [bool_decide fst snd].
  rewrite bool_decide_false by done. rewrite bool_decide_true by done.
  cbn [fst snd]. split; [|done].
  destruct (asked_effects matchingDocuments) as (Hasked & _).
  cbv zeta in Hasked. rewrite downloadedIDs_app, Hasked.
  apply exportAll_effects.
Qed.

(** With several matches: the listing, the options and the read, and then
    what the answer leads to, which reads nothing more. *)
Lemma exportMatches_several matchingDocuments line outputDirectory format
    outcomes :
  1 < length matchingDocuments →
  ∃ rest,
    (exportMatches matchingDocuments line outputDirectory format outcomes).1
    = ((Print (newline +:+ "Found " +:+ formatInt (length matchingDocuments)
               +:+ " matching document(s):" +:+ newline)
        :: printMatches matchingDocuments) ++ printOptions ++ [ReadLine])
      ++ rest
    ∧ existsb isReadLine rest = false.
Proof.
  intros Hseveral. unfold exportMatches.
  destruct matchingDocuments as [|first others]; [cbn in Hseveral; lia|].
  set (matchingDocuments := first :: others) in *.
  rewrite (bool_decide_true _ Hseveral).
  destruct (bool_decide (TrimSpace (ToLower line) = "q"));
    [by eexists|].
  destruct (bool_decide (TrimSpace (ToLower line) = "all")).
  { eexists. split; [reflexivity|]. apply exportAll_effects. }
  destruct (Atoi (TrimSpace (ToLower line))) as [selection|]; [|by eexists].
  destruct (_ || _); [by eexists|].
  destruct (matchingDocuments !! Z.to_nat (selection - 1)) as [document|].
  - eexists. split; [reflexivity|]. apply exportDocument_effects.
  - exists []. by rewrite app_nil_r.
Qed.

(** X18: the terminal is read exactly when more than one document matches;
    a single match is exported without asking. *)
Theorem exportMatches_reads_only_when_several
    (matchingDocuments : list GoogleDocument) (line outputDirectory : string)
    (format : ExportFormat) (outcomes : nat → ExportOutcomes) :
  existsb isReadLine
    (exportMatches matchingDocuments line outputDirectory format outcomes).1
  = bool_decide (1 < length matchingDocuments)
  ∧ (∀ document,
       matchingDocuments = [document] →
       downloadedIDs
         (exportMatches matchingDocuments line outputDirectory format
            outcomes).1
       = [ID document]).
Proof.
  split.
  - destruct (decide (1 < length matchingDocuments)) as [Hseveral|Hfew].
    + rewrite (bool_decide_true _ Hseveral).
      destruct (exportMatches_several matchingDocuments line outputDirectory
                  format outcomes Hseveral) as (rest & -> & Hrest).
      destruct (asked_effects matchingDocuments) as (_ & Hread & _).
      cbv zeta in Hread. by rewrite existsb_app, Hread.
    + rewrite (bool_decide_false _ Hfew). unfold exportMatches.
      destruct matchingDocuments as [|first others]; [done|].
      rewrite (bool_decide_false _ Hfew). cbn [fst].
      rewrite <- app_comm_cons. cbn [existsb isReadLine orb].
      rewrite existsb_app.
      destruct (exportDocument_effects first outputDirectory format (outcomes 0))
        as [_ ->].
      destruct (prints_effects
                  (λ index document,
                     "  " +:+ formatInt (index + 1) +:+ ". " +:+ Name document
                     +:+ newline) (first :: others)) as (_ & Hprints & _).
      unfold printMatches. by rewrite Hprints.
  - intros document ->. unfold exportMatches.
    rewrite bool_decide_false by (cbn; lia). cbn [fst].
    rewrite <- app_comm_cons, downloadedIDs_print, downloadedIDs_app.
    apply exportDocument_effects.
Qed.

(** X19: nothing is downloaded or written when no document matched, when
    the answer is "q", or when the selection is refused (exit code 1): the
    program then only prints and, with several matches, reads the answer. *)
Theorem exportMatches_nothing_exported
    (matchingDocuments : list GoogleDocument) (line outputDirectory : string)
    (format : ExportFormat) (outcomes : nat → ExportOutcomes) :
  matchingDocuments = []
  ∨ (1 < length matchingDocuments ∧ TrimSpace (ToLower line) = "q")
  ∨ (exportMatches matchingDocuments line outputDirectory format outcomes).2
    = 1%Z →
  existsb reachesOutside
    (exportMatches matchingDocuments line outputDirectory format outcomes).1
  = false.
Proof.
  unfold exportMatches.
  destruct matchingDocuments as [|first others]; [done|].
  set (matchingDocuments := first :: others) in *.
  destruct (asked_effects matchingDocuments) as (_ & _ & Hasked).
  cbv zeta in Hasked.
  destruct (bool_decide (1 < length matchingDocuments)) eqn:Hseveral.
  2:{ apply bool_decide_eq_false in Hseveral. cbn [snd].
      intros [?|[[? _]|?]]; done. }
  destruct (decide (TrimSpace (ToLower line) = "q")) as [Hq|Hq].
  { rewrite (bool_decide_true _ Hq). intros _. cbn [fst].
    by rewrite existsb_app, Hasked. }
  rewrite (bool_decide_false _ Hq).
  destruct (bool_decide (TrimSpace (ToLower line) = "all"));
    [cbn [snd]; intros [?|[[_ ?]|?]]; done|].
  assert (existsb reachesOutside
            (((Print (newline +:+ "Found "
                      +:+ formatInt (length matchingDocuments)
                      +:+ " matching document(s):" +:+ newline)
               :: printMatches matchingDocuments) ++ printOptions ++ [ReadLine])
             ++ [Print ("Invalid selection." +:+ newline)]) = false)
    as Hrefused by (by rewrite existsb_app, Hasked).
  destruct (Atoi (TrimSpace (ToLower line))) as [selection|]; [|done].
  destruct (_ || _); [done|].
  destruct (matchingDocuments !! Z.to_nat (selection - 1));
    cbn [snd]; intros [?|[[_ ?]|?]]; done.
Qed.
End Selection.

(** ** [ExportDocument] *)

Section MoreExport.
Context `{FilePath}.

(** X20: [ExportDocument] closes what it opened, once: the response body
    exactly when the download succeeded, the output file exactly when it was
    created; when the download fails nothing else is done, no directory and
    no file is made; and it succeeds only when the download, the creation of
    the file and the copy all succeeded. *)
Theorem ExportDocument_closes_what_it_opened
    (documentID outputPath : string) (format : ExportFormat)
    (outcomes : ExportOutcomes) :
  countEffects isCloseBody
    (ExportDocument documentID outputPath format outcomes).1
  = (if download outcomes is inr _ then 1 else 0)
  ∧ countEffects isCloseFile
      (ExportDocument documentID outputPath format outcomes).1
    = (if create outcomes is None
       then countEffects isCreate
              (ExportDocument documentID outputPath format outcomes).1
       else 0)
  ∧ countEffects isCreate
      (ExportDocument documentID outputPath format outcomes).1 ≤ 1
  ∧ (∀ cause,
       download outcomes = inl cause →
       ExportDocument documentID outputPath format outcomes
       = ([Download documentID (MimeType format)],
          Some (ExportFailed cause)))
  ∧ ((ExportDocument documentID outputPath format outcomes).2 = None →
     (∃ body, download outcomes = inr body)
     ∧ create outcomes = None
     ∧ ∃ bytesWritten, copy outcomes = inr bytesWritten).
Proof.
  unfold ExportDocument.
  destruct (download outcomes) as [cause|body].
  { split_and!; try done; cbn; try lia.
    - by destruct (create outcomes).
    - by intros ? [= ->]. }
  destruct (negb (bool_decide (filepath_Dir outputPath = "."))
            && negb (bool_decide (filepath_Dir outputPath = "")));
    [destruct (mkdirAll outcomes) as [mkdirCause|]|];
    destruct (create outcomes) as [createCause|];
    destruct (copy outcomes) as [copyCause|bytesWritten];
    split_and!; try done; cbn; try lia; intros _; split_and!; eauto.
Qed.
End MoreExport.

(** ** [ListGoogleDocs] *)

Lemma listPages_pages (pages : list FileList) (answers : list (string + FileList))
    (pageToken : string) (documents : list GoogleDocument)
    (requests : list Effect) :
  Forall (λ page, NextPageToken page ≠ "") pages →
  listPages ((inr <$> pages) ++ answers) pageToken documents requests
  = listPages answers (tokenAfter pageToken pages)
      (documents ++ (toGoogleDocument <$> concat (Files <$> pages)))
      (requests ++ (listRequest <$> tokensSent pageToken pages)).
Proof.
  intros Hpages. revert pageToken documents requests.
  induction Hpages as [|page pages Hpage _ IH];
    intros pageToken documents requests.
  - cbn. by rewrite !app_nil_r.
  - cbn [fmap list_fmap app listPages]. rewrite bool_decide_false by done.
    rewrite IH. cbn [tokenAfter tokensSent concat fmap list_fmap].
    by rewrite fmap_app, <- !app_assoc.
Qed.

Lemma tokensSent_last (pageToken : string) (pages : list FileList)
    (last : FileList) :
  tokensSent pageToken (pages ++ [last])
  = pageToken :: (NextPageToken <$> pages).
Proof.
  revert pageToken. induction pages as [|page pages IH]; intros pageToken;
    [done|].
  cbn [app tokensSent fmap list_fmap]. by rewrite IH.
Qed.

Lemma listPages_last (last : FileList) (answers : list (string + FileList))
    (pageToken : string) (documents : list GoogleDocument)
    (requests : list Effect) :
  NextPageToken last = "" →
  listPages (inr last :: answers) pageToken documents requests
  = Some (inr (documents ++ (toGoogleDocument <$> Files last)),
          requests ++ [listRequest pageToken]).
Proof. intros Hlast. cbn [listPages]. by rewrite bool_decide_true. Qed.

(** X21: when the listing answers with pages that each carry a next-page
    token and then with a page that carries none, [ListGoogleDocs] returns
    the files of all these pages, in order, each as a document with the same
    identifier, name, description and times; it has asked once per page, each
    time for non-trashed Google Docs, 100 a page, first with no page token and
    then with the token of the page before. *)
Theorem ListGoogleDocs_all_pages
    (pages : list FileList) (last : FileList)
    (later : list (string + FileList)) :
  Forall (λ page, NextPageToken page ≠ "") pages →
  NextPageToken last = "" →
  ListGoogleDocs ((inr <$> pages) ++ inr last :: later)
  = Some (inr (toGoogleDocument <$> concat (Files <$> pages ++ [last])),
          listRequest <$> "" :: (NextPageToken <$> pages)).
Proof.
  intros Hpages Hlast. unfold ListGoogleDocs.
  rewrite listPages_pages, listPages_last by done.
  rewrite <- tokensSent_last with (last := last).
  assert (∀ token, tokensSent token (pages ++ [last])
                   = tokensSent token pages ++ [tokenAfter token pages])
    as Hsent.
  { clear. induction pages as [|page pages IH]; intros token; [done|].
    cbn [app tokensSent tokenAfter]. by rewrite IH. }
  rewrite Hsent, !fmap_app, concat_app. cbn [app concat fmap list_fmap].
  by rewrite app_nil_r, fmap_app.
Qed.

(** X22: when a request of the listing fails, [ListGoogleDocs] returns the
    error "failed to list files: " with the cause and none of the documents
    of the pages read before, and asks for nothing more. *)
Theorem ListGoogleDocs_error_discards
    (pages : list FileList) (cause : string)
    (later : list (string + FileList)) :
  Forall (λ page, NextPageToken page ≠ "") pages →
  ListGoogleDocs ((inr <$> pages) ++ inl cause :: later)
  = Some (inl ("failed to list files: " +:+ cause),
          listRequest <$> "" :: (NextPageToken <$> pages)).
Proof.
  intros Hpages. unfold ListGoogleDocs. rewrite listPages_pages by done.
  cbn [listPages app].
  rewrite <- (tokensSent_last "" pages {| Files := []; NextPageToken := "" |}).
  assert (∀ token last, tokensSent token (pages ++ [last])
                        = tokensSent token pages ++ [tokenAfter token pages])
    as Hsent.
  { clear. induction pages as [|page pages IH]; intros token last; [done|].
    cbn [app tokensSent tokenAfter]. by rewrite IH. }
  by rewrite Hsent, fmap_app.
Qed.

(** X23: as long as every page carries a next-page token, the loop of
    [ListGoogleDocs] asks for another page: it has no bound of its own on the
    number of pages, and returns nothing before a page without a token or an
    error arrives. *)
Theorem ListGoogleDocs_keeps_asking (pages : list FileList) :
  Forall (λ page, NextPageToken page ≠ "") pages →
  ListGoogleDocs (inr <$> pages) = None.
Proof.
  intros Hpages. unfold ListGoogleDocs.
  rewrite <- (app_nil_r (inr <$> pages)). by rewrite listPages_pages.
Qed.

(** ** The further properties at concrete inputs *)

(** Witness for X8, at the line "1. Dr. Smith". *)
Lemma cleanLine_ascii_substring_witness :
  (∃ before after,
     "1. Dr. Smith" = before +:+ @cleanLine noTables "1. Dr. Smith" +:+ after)
  ∧ isASCII (@cleanLine noTables "1. Dr. Smith") = true.
Proof.
  apply (@cleanLine_ascii_substring noTables "1. Dr. Smith"). reflexivity.
Defined.

(** Witness for X9, at a document named "A. Report", whose echoed name is
    cleaned to "Report". *)
Lemma FindMatchingDocuments_finds_echoed_name_witness :
  doc "A. Report" ""
  ∈ @FindMatchingDocuments noTables [alpha; doc "A. Report" ""] ["Report"].
Proof.
  apply (@FindMatchingDocuments_finds_echoed_name noTables
           [alpha; doc "A. Report" ""] ["Report"] (doc "A. Report" "")).
  - apply list_elem_of_In. simpl. tauto.
  - reflexivity.
  - apply list_elem_of_In. left. reflexivity.
Defined.

(** Witness for X12, at the names "a/b" and "a:b". *)
Lemma exportDocument_outputPath_collides_witness :
  exportDocument_outputPath (doc "a/b" "") "downloads" pdf
  = exportDocument_outputPath (doc "a:b" "") "downloads" pdf.
Proof.
  apply (exportDocument_outputPath_collides (doc "a/b" "") (doc "a:b" "")
           "a" "b" "/"%char ":"%char "downloads" pdf); reflexivity.
Defined.

(** Witness for X13, at the format "pdf" and a document named
    "../../etc/passwd". *)
Lemma exportDocument_outputPath_in_directory_witness :
  hasSeparator (exportDocument_filename (doc "../../etc/passwd" "") pdf) = false
  ∧ exportDocument_outputPath (doc "../../etc/passwd" "") "downloads" pdf
    = "downloads" +:+ "/"
      +:+ exportDocument_filename (doc "../../etc/passwd" "") pdf.
Proof.
  destruct (exportDocument_outputPath_in_directory "pdf" pdf
              (doc "../../etc/passwd" "") "downloads" eq_refl)
    as (_ & Hseparator & _ & Hpath).
  split; [exact Hseparator|]. apply Hpath; discriminate.
Defined.

(** Witness for X14, at the flag values "PDF" and "Pdf". *)
Lemma lookupExportFormat_ignores_case_witness :
  is_Some (@lookupExportFormat noTables "PDF")
  ∧ @lookupExportFormat noTables "Pdf" = @lookupExportFormat noTables "PDF".
Proof.
  destruct (@lookupExportFormat_ignores_case noTables "PDF" "Pdf" eq_refl)
    as [Hsupported Hsame].
  split.
  - apply Hsupported. apply list_elem_of_In. left. reflexivity.
  - apply Hsame; reflexivity.
Defined.

(** Witness for X15, at the matches Alpha, Beta, Gamma and the answer "2". *)
Lemma exportMatches_selects_listed_number_witness :
  downloadedIDs
    (@exportMatches slashPaths noTables [alpha; beta; gamma] ("2" +:+ newline)
       "downloads" pdf (λ _, exportSucceeds)).1
  = ["Beta"].
Proof.
  destruct (@exportMatches_selects_listed_number slashPaths noTables
              [alpha; beta; gamma] 1 beta "downloads" pdf
              (λ _, exportSucceeds)) as [_ Hexport].
  - cbn. lia.
  - cbn. lia.
  - reflexivity.
  - change (formatInt (1 + 1)) with "2" in Hexport. rewrite Hexport.
    reflexivity.
Defined.

(** Witness for X17, at the answer " ALL" and a first export that is
    refused. *)
Lemma exportMatches_all_attempted_witness :
  downloadedIDs
    (@exportMatches slashPaths noTables [alpha; beta; gamma]
       (" ALL" +:+ newline) "downloads" pdf
       (λ i, if i is 0 then downloadRefused else exportSucceeds)).1
  = ["Alpha"; "Beta"; "Gamma"]
  ∧ (@exportMatches slashPaths noTables [alpha; beta; gamma]
       (" ALL" +:+ newline) "downloads" pdf
       (λ i, if i is 0 then downloadRefused else exportSucceeds)).2
    = 0%Z.
Proof.
  apply (@exportMatches_all_attempted slashPaths noTables [alpha; beta; gamma]
           (" ALL" +:+ newline) "downloads" pdf
           (λ i, if i is 0 then downloadRefused else exportSucceeds)).
  - cbn. lia.
  - reflexivity.
Defined.

(** Witness for X19, at the answer "0", which is refused. *)
Lemma exportMatches_nothing_exported_witness :
  existsb reachesOutside
    (@exportMatches slashPaths noTables [alpha; beta] ("0" +:+ newline)
       "downloads" pdf (λ _, exportSucceeds)).1
  = false.
Proof.
  apply (@exportMatches_nothing_exported slashPaths noTables [alpha; beta]
           ("0" +:+ newline) "downloads" pdf (λ _, exportSucceeds)).
  right. right. reflexivity.
Defined.

(** Witness for X21, at two pages. *)
Lemma ListGoogleDocs_all_pages_witness :
  ListGoogleDocs [inr firstPage; inr lastPage]
  = Some (inr (toGoogleDocument
                 <$> [fileOf "1" "Alpha"; fileOf "2" "Beta"; fileOf "3" "Gamma"]),
          [listRequest ""; listRequest "t1"]).
Proof.
  apply (ListGoogleDocs_all_pages [firstPage] lastPage []).
  - constructor; [discriminate | constructor].
  - reflexivity.
Defined.

(** Witness for X22, at a failure after the first page. *)
Lemma ListGoogleDocs_error_discards_witness :
  ListGoogleDocs [inr firstPage; inl "timeout"; inr lastPage]
  = Some (inl "failed to list files: timeout",
          [listRequest ""; listRequest "t1"]).
Proof.
  apply (ListGoogleDocs_error_discards [firstPage] "timeout" [inr lastPage]).
  constructor; [discriminate | constructor].
Defined.

(** Witness for X23, at a listing that answers twice with a page that
    carries a token. *)
Lemma ListGoogleDocs_keeps_asking_witness :
  ListGoogleDocs [inr firstPage; inr firstPage] = None.
Proof.
  apply (ListGoogleDocs_keeps_asking [firstPage; firstPage]).
  repeat (constructor; [discriminate|]). constructor.
Defined.

(** ** [main] and the start-up *)

Lemma Join_empty (args : list string) :
  Join args " " = "" ↔ args = [] ∨ args = [""].
Proof.
  split; [|intros [-> | ->]; reflexivity].
  destruct args as [|first [|second rest]]; [by left | |].
  - cbn [Join]. intros ->. by right.
  - cbn [Join]. destruct first; unfold_append; [|discriminate].
    discriminate.
Qed.

Lemma listPages_asks_only (p : Effect → bool) answers pageToken documents
    requests result asked :
  (∀ q fields pageSize token, p (ListFiles q fields pageSize token) = false) →
  listPages answers pageToken documents requests = Some (result, asked) →
  existsb p asked = existsb p requests.
Proof.
  intros Hp. revert pageToken documents requests.
  induction answers as [|answer answers IH];
    intros pageToken documents requests; [done|].
  cbn [listPages].
  assert (existsb p (requests ++ [listRequest pageToken]) = existsb p requests)
    as Hasked.
  { rewrite existsb_app. cbn [existsb]. unfold listRequest.
    by rewrite Hp, !orb_false_r. }
  destruct answer as [cause|response]; [by intros [= <- <-]|].
  destruct (bool_decide (NextPageToken response = ""));
    [by intros [= <- <-]|].
  intros Hrest. by rewrite (IH _ _ _ Hrest).
Qed.

Lemma printDocuments_prints (p : Effect → bool) documents :
  (∀ text, p (Print text) = false) →
  existsb p (printDocuments documents) = false.
Proof.
  intros Hp. unfold printDocuments.
  assert (∀ (f : nat → GoogleDocument → list Effect),
            (∀ i d, existsb p (f i d) = false) →
            existsb p (concat (imap f documents)) = false) as Hconcat.
  { induction documents as [|document rest IH]; intros f Hf; [done|].
    cbn [imap concat]. rewrite existsb_app, Hf. apply IH.
    intros i d. apply Hf. }
  apply Hconcat. intros i d. unfold printDocument.
  rewrite !existsb_app. destruct (negb _); cbn [existsb]; by rewrite !Hp.
Qed.

(** The head of a list of effects is decided, the rest is split at the
    appends. *)
Ltac effects_simpl :=
  cbn [existsb afterListing readsTogetherKey app];
  rewrite ?bool_decide_false by done;
  cbn [orb]; rewrite ?existsb_app.

Section MoreMain.
Context `{FilePath} `{UnicodeTables} `{Environment}.

(** X24: with no query (no argument, or one empty argument) and without
    [-list], [main] prints the usage text and exits with code 0; it looks at
    nothing else, not at the format flag, the environment or the network. *)
Theorem main_help `{Network}
    (outputDirectory exportType : string) (args : list string)
    (answers : list (string + FileList)) (line : string)
    (outcomes : nat → ExportOutcomes) :
  args = [] ∨ args = [""] →
  main outputDirectory false exportType args answers line outcomes
  = Some (printLines helpText, 0%Z)
  ∧ existsb reachesOutside (printLines helpText) = false
  ∧ length (printLines helpText) = 21.
Proof.
  intros Hargs. apply Join_empty in Hargs. unfold main. rewrite Hargs.
  split_and!; reflexivity.
Qed.

(** X25: a format that is not in the table stops [main] with exit code 1
    and the two lines of the error, before the environment is read or
    anything is asked of Drive, also in list mode, where no format is
    needed. *)
Theorem main_unsupported_format `{Network}
    (outputDirectory exportType : string) (listOnly : bool)
    (args : list string) (answers : list (string + FileList)) (line : string)
    (outcomes : nat → ExportOutcomes) :
  lookupExportFormat exportType = None →
  listOnly = true ∨ Join args " " ≠ "" →
  main outputDirectory listOnly exportType args answers line outcomes
  = Some ([PrintError ("Error: unsupported format '" +:+ exportType +:+ "'"
                       +:+ newline);
           PrintError ("Supported formats: pdf, docx, odt, rtf, txt, html, epub, md"
                       +:+ newline)],
          1%Z).
Proof.
  intros Hformat Hrun. unfold main. rewrite Hformat.
  destruct Hrun as [-> | Hquery].
  - by rewrite andb_false_r.
  - by rewrite bool_decide_false.
Qed.

(** X26: in list mode the outcome of [main] does not depend on the Together
    service, on the terminal or on the exports, and [main] neither reads the
    Together key nor filters, asks or exports anything. *)
Theorem main_list_only
    (network other : Network)
    (outputDirectory exportType : string) (args : list string)
    (answers : list (string + FileList)) (line line' : string)
    (outcomes outcomes' : nat → ExportOutcomes) :
  @main _ _ network _ outputDirectory true exportType args answers line outcomes
  = @main _ _ other _ outputDirectory true exportType args answers line'
      outcomes'
  ∧ ∀ effects code,
      @main _ _ network _ outputDirectory true exportType args answers line
        outcomes = Some (effects, code) →
      existsb afterListing effects = false ∧ code ≠ 2%Z.
Proof.
  unfold main. rewrite andb_false_r.
  destruct (lookupExportFormat exportType) as [format|];
    [|split; [done|]; by intros ? ? [= <- <-]].
  destruct LoadGoogleDocsToken as [message|token];
    [split; [done|]; by intros ? ? [= <- <-]|].
  destruct (NewDriveClient token) as [message|];
    [split; [done|]; by intros ? ? [= <- <-]|].
  destruct (ListGoogleDocs answers) as [[[message|documents] requests]|]
    eqn:Hlisted; [| |done].
  - split; [done|]. intros ? ? [= <- <-]. split; [|done].
    effects_simpl.
    rewrite (listPages_asks_only afterListing _ _ _ _ _ _
               (λ _ _ _ _, eq_refl) Hlisted).
    done.
  - assert (existsb afterListing requests = false) as Hrequests
      by apply (listPages_asks_only afterListing _ _ _ _ _ _
                  (λ _ _ _ _, eq_refl) Hlisted).
    destruct (bool_decide (length documents = 0)).
    + split; [done|]. intros ? ? [= <- <-]. split; [|done].
      effects_simpl. by rewrite Hrequests.
    + split; [done|]. intros ? ? [= <- <-]. split; [|done].
      effects_simpl. rewrite Hrequests.
      by rewrite (printDocuments_prints afterListing documents (λ _, eq_refl)).
Qed.

(** X27: [main] reads the Together key only when it is not in list mode
    and the listing has returned at least one document; with an empty Drive
    a missing key goes unnoticed. *)
Theorem main_reads_key_after_listing `{Network}
    (outputDirectory exportType : string) (listOnly : bool)
    (args : list string) (answers : list (string + FileList)) (line : string)
    (outcomes : nat → ExportOutcomes) (effects : list Effect) (code : Z) :
  main outputDirectory listOnly exportType args answers line outcomes
  = Some (effects, code) →
  existsb readsTogetherKey effects = true →
  listOnly = false
  ∧ ∃ documents requests,
      ListGoogleDocs answers = Some (inr documents, requests)
      ∧ documents ≠ [].
Proof.
  unfold main.
  destruct (bool_decide (Join args " " = "") && negb listOnly).
  { intros [= <- <-] Hread. vm_compute in Hread. discriminate. }
  destruct (lookupExportFormat exportType) as [format|];
    [|by intros [= <- <-]].
  destruct LoadGoogleDocsToken as [message|token]; [by intros [= <- <-]|].
  destruct (NewDriveClient token) as [message|]; [by intros [= <- <-]|].
  destruct (ListGoogleDocs answers) as [[[message|documents] requests]|]
    eqn:Hlisted; [| |done].
  - intros [= <- <-]. effects_simpl.
    rewrite (listPages_asks_only readsTogetherKey _ _ _ _ _ _
               (λ _ _ _ _, eq_refl) Hlisted).
    done.
  - assert (existsb readsTogetherKey requests = false) as Hrequests
      by apply (listPages_asks_only readsTogetherKey _ _ _ _ _ _
                  (λ _ _ _ _, eq_refl) Hlisted).
    destruct (bool_decide (length documents = 0)) eqn:Hnone.
    { intros [= <- <-]. effects_simpl. by rewrite Hrequests. }
    apply bool_decide_eq_false in Hnone.
    destruct listOnly.
    { intros [= <- <-]. effects_simpl. rewrite Hrequests.
      by rewrite (printDocuments_prints readsTogetherKey documents
                    (λ _, eq_refl)). }
    intros _ _. split; [done|]. exists documents, requests.
    split; [done|]. by destruct documents.
Qed.

(** X28: [LoadGoogleDocsToken] succeeds exactly when the variable
    GOOGLE-DOCS_JWT_KEY is not empty and its content decodes, and returns the
    decoded token; [GetTogetherAPIKey] succeeds exactly when TOGETHER_API_KEY
    is not empty, and returns its content as it is. *)
Theorem credentials_present (token : TokenData) (key : string) :
  (LoadGoogleDocsToken = inr token ↔
   os_Getenv "GOOGLE-DOCS_JWT_KEY" ≠ ""
   ∧ json_UnmarshalToken (os_Getenv "GOOGLE-DOCS_JWT_KEY") = inr token)
  ∧ (GetTogetherAPIKey = inr key ↔
     key ≠ "" ∧ os_Getenv "TOGETHER_API_KEY" = key).
Proof.
  unfold LoadGoogleDocsToken, GetTogetherAPIKey. split.
  - destruct (decide (os_Getenv "GOOGLE-DOCS_JWT_KEY" = "")) as [Hempty|Hset].
    + rewrite (bool_decide_true _ Hempty). split; [done | by intros [? _]].
    + rewrite (bool_decide_false _ Hset).
      destruct (json_UnmarshalToken _) as [cause|decoded].
      * split; [done | by intros [_ ?]].
      * split; [by intros [= ->] | by intros [_ [= ->]]].
  - destruct (decide (os_Getenv "TOGETHER_API_KEY" = "")) as [Hempty|Hset].
    + rewrite (bool_decide_true _ Hempty). split; [done|].
      intros [Hkey <-]. done.
    + rewrite (bool_decide_false _ Hset). split.
      * by intros [= <-].
      * by intros [_ ->].
Qed.

Lemma exportMatches_code matchingDocuments line outputDirectory format
    outcomes :
  (exportMatches matchingDocuments line outputDirectory format outcomes).2 = 0%Z
  ∨ ((exportMatches matchingDocuments line outputDirectory format outcomes).2
     = 1%Z
     ∧ last (exportMatches matchingDocuments line outputDirectory format
               outcomes).1
       = Some (Print ("Invalid selection." +:+ newline))).
Proof.
  unfold exportMatches.
  destruct matchingDocuments as [|first others]; [by left|].
  set (matchingDocuments := first :: others).
  destruct (bool_decide (1 < length matchingDocuments)); [|by left].
  destruct (bool_decide (TrimSpace (ToLower line) = "q")); [by left|].
  destruct (bool_decide (TrimSpace (ToLower line) = "all")); [by left|].
  destruct (Atoi (TrimSpace (ToLower line))) as [selection|];
    [|right; split; [done | apply last_snoc]].
  destruct (decide (selection < 1)%Z) as [Hlow|Hlow].
  { rewrite (bool_decide_true _ Hlow). right. split; [done | apply last_snoc]. }
  rewrite (bool_decide_false _ Hlow).
  destruct (decide (Z.of_nat (length matchingDocuments) < selection)%Z)
    as [Hhigh|Hhigh].
  { rewrite (bool_decide_true _ Hhigh). right.
    split; [done | apply last_snoc]. }
  rewrite (bool_decide_false _ Hhigh). cbn [orb].
  destruct (matchingDocuments !! Z.to_nat (selection - 1)) eqn:Hlookup;
    [by left|].
  apply lookup_ge_None in Hlookup. lia.
Qed.

(** X29: once the command line is parsed (from the line after the call of
    [flag.Parse] to the end of [main]), when [main] returns its exit code
    is 0 or 1, and it is 1 only after an explanation: the last thing the
    program did was to print an error on standard error, or the line
    "Invalid selection.".  A command line that the flag package refuses ends
    the program inside [flag.Parse], with that package's own exit code, and
    is not covered. *)
Theorem main_exit_code `{Network}
    (outputDirectory exportType : string) (listOnly : bool)
    (args : list string) (answers : list (string + FileList)) (line : string)
    (outcomes : nat → ExportOutcomes) (effects : list Effect) (code : Z) :
  main outputDirectory listOnly exportType args answers line outcomes
  = Some (effects, code) →
  code = 0%Z
  ∨ (code = 1%Z
     ∧ ((∃ text, last effects = Some (PrintError text))
        ∨ last effects = Some (Print ("Invalid selection." +:+ newline)))).
Proof.
  intros Hmain.
  assert (match main outputDirectory listOnly exportType args answers line
                  outcomes with
          | Some (effects, code) =>
              code = 0%Z
              ∨ (code = 1%Z
                 ∧ ((∃ text, last effects = Some (PrintError text))
                    ∨ last effects
                      = Some (Print ("Invalid selection." +:+ newline))))
          | None => True
          end) as Hcases; [|by rewrite Hmain in Hcases].
  clear Hmain. unfold main.
  destruct (bool_decide (Join args " " = "") && negb listOnly); [by left|].
  destruct (lookupExportFormat exportType) as [format|];
    [|right; split; [done|]; left; by eexists].
  destruct LoadGoogleDocsToken as [message|token];
    [right; split; [done|]; left; eexists; apply last_snoc|].
  destruct (NewDriveClient token) as [message|];
    [right; split; [done|]; left; eexists; apply last_snoc|].
  destruct (ListGoogleDocs answers) as [[[message|documents] requests]|];
    [| |done].
  { right. split; [done|]. left. eexists. rewrite !app_assoc. apply last_snoc. }
  destruct (bool_decide (length documents = 0)); [by left|].
  destruct listOnly; [by left|].
  destruct GetTogetherAPIKey as [message|togetherKey];
    [right; split; [done|]; left; eexists; apply last_snoc|].
  destruct (FilterDocuments _ documents (Join args " ")) as [err|matchingNames];
    [right; split; [done|]; left; eexists; apply last_snoc|].
  destruct (exportMatches_code
              (FindMatchingDocuments documents matchingNames) line
              outputDirectory format outcomes) as [Hok|[Hrefused Hlast]];
    [by left|].
  right. split; [done|]. right. by rewrite last_app, Hlast.
Qed.
End MoreMain.

(** Witness for X24, at no argument at all and an unsupported format. *)
Lemma main_help_witness :
  @main slashPaths noTables (fixedResponse errorBody) emptyEnvironment
    "downloads" false "exe" [] [] "" (λ _, downloadRefused)
  = Some (printLines helpText, 0%Z).
Proof.
  destruct (@main_help slashPaths noTables emptyEnvironment
              (fixedResponse errorBody) "downloads" "exe" [] [] ""
              (λ _, downloadRefused)) as [Hhelp _].
  - left. reflexivity.
  - exact Hhelp.
Defined.

(** Witness for X25, at the format "exe" in list mode. *)
Lemma main_unsupported_format_witness :
  @main slashPaths noTables (fixedResponse errorBody) readyEnvironment
    "downloads" true "exe" [] [inr lastPage] "" (λ _, exportSucceeds)
  = Some ([PrintError ("Error: unsupported format 'exe'" +:+ newline);
           PrintError ("Supported formats: pdf, docx, odt, rtf, txt, html, epub, md"
                       +:+ newline)],
          1%Z).
Proof.
  apply (@main_unsupported_format slashPaths noTables readyEnvironment
           (fixedResponse errorBody) "downloads" "exe" true [] [inr lastPage] ""
           (λ _, exportSucceeds)).
  - reflexivity.
  - left. reflexivity.
Defined.

(** Witness for X27, at a run that filters one page of documents. *)
Lemma main_reads_key_after_listing_witness :
  ∃ documents requests,
    ListGoogleDocs [inr lastPage] = Some (inr documents, requests)
    ∧ documents ≠ [].
Proof.
  destruct (@main_reads_key_after_listing slashPaths noTables readyEnvironment
              (fixedResponse (answer "Gamma")) "downloads" "pdf" false
              ["gamma"] [inr lastPage] "" (λ _, exportSucceeds)
              _ _ eq_refl eq_refl) as [_ Hlisted].
  exact Hlisted.
Defined.

(** Witness for X29, at a run stopped by the missing token. *)
Lemma main_exit_code_witness :
  ∃ text,
    last [Getenv "GOOGLE-DOCS_JWT_KEY";
          PrintError
            ("Error: GOOGLE-DOCS_JWT_KEY not set" +:+ newline +:+ newline
             +:+ "Run: . .\tools\load-key.ps1 -Service google-docs -Target JWT"
             +:+ newline)]
    = Some (PrintError text).
Proof.
  destruct (@main_exit_code slashPaths noTables emptyEnvironment
              (fixedResponse errorBody) "downloads" "pdf" false ["notes"]
              [inr lastPage] "" (λ _, exportSucceeds) _ _ eq_refl)
    as [Hzero | [_ [Herror | Hinvalid]]].
  - discriminate Hzero.
  - exact Herror.
  - discriminate Hinvalid.
Defined.

(** ** Matching ASCII names *)

Section MatchASCII.
Context `{UnicodeTables}.

(** X30: when the display name and the candidates are ASCII, a document is
    returned exactly when the lowered form of some candidate occurs in the
    lowered display name: the match ignores case and accepts any part of the
    name, for instance a single letter. *)
Theorem FindMatchingDocuments_ascii_containment
    (documents : list GoogleDocument) (matchingNames : list string)
    (document : GoogleDocument) :
  isASCII (Name document) = true →
  Forall (λ name, isASCII name = true) matchingNames →
  document ∈ FindMatchingDocuments documents matchingNames ↔
  document ∈ documents
  ∧ ∃ name before after,
      name ∈ matchingNames
      ∧ mapBytes lowerByte (Name document)
        = before +:+ mapBytes lowerByte name +:+ after.
Proof.
  intros Hdocument Hnames. rewrite elem_of_FindMatchingDocuments.
  rewrite Forall_forall in Hnames. split.
  - intros (Hin & name & Hname & Hmatch). split; [done|].
    apply nameMatches_ascii in Hmatch as (before & after & Hparts);
      [|done|by apply Hnames].
    by exists name, before, after.
  - intros (Hin & name & before & after & Hname & Hparts). split; [done|].
    exists name. split; [done|].
    apply nameMatches_ascii; [done | by apply Hnames|].
    by exists before, after.
Qed.
End MatchASCII.

(** Witness for X30, at the documents Alpha, Beta, Gamma and the candidate
    "A", which selects all three. *)
Lemma FindMatchingDocuments_ascii_containment_witness :
  beta ∈ @FindMatchingDocuments noTables [alpha; beta; gamma] ["A"].
Proof.
  apply (@FindMatchingDocuments_ascii_containment noTables
           [alpha; beta; gamma] ["A"] beta).
  - reflexivity.
  - repeat constructor.
  - split.
    + apply list_elem_of_In. simpl. tauto.
    + exists "A", "bet", "". split; [|reflexivity].
      apply list_elem_of_In. simpl. tauto.
Defined.
